(** * Timer / PIC I/O subsystem (timer_pic.c): model and verified properties

    The C file keeps one global [TimerDevice], one global [PICDevice] and a
    global cycle counter.  The model threads them explicitly through every
    function as one record [iosub].  Unsigned C integers are [Z] with their
    wrap-around written out ([u8], [u32], [u64]); the fixed-size per-vector
    arrays are lists of length 64 read with [!!!] and written with
    [<[_:=_]>]; [long double] is an abstract arithmetic interface. *)

From Stdlib Require Import ZArith Lia Bool QArith Qreduction.
From stdpp Require Import base list.

Local Open Scope Z_scope.

(** ** Machine integers *)

Definition u8 (x : Z) : Z := x mod 2 ^ 8.
Definition u16 (x : Z) : Z := x mod 2 ^ 16.
Definition u32 (x : Z) : Z := x mod 2 ^ 32.
Definition u64 (x : Z) : Z := x mod 2 ^ 64.

(** [~x] on a [uint32_t]. *)
Definition not32 (x : Z) : Z := u32 (Z.lnot x).

(** [__builtin_ctz]: number of trailing zero bits of a 32-bit word.  The
    intrinsic is undefined at 0; the loop below then answers 32. *)
Fixpoint ctz_loop (fuel : nat) (x : Z) : Z :=
  match fuel with
  | O => 0
  | S fuel' => if Z.odd x then 0 else 1 + ctz_loop fuel' (Z.shiftr x 1)
  end.

Definition builtin_ctz (x : Z) : Z := ctz_loop 32 x.

(** ** Long double arithmetic

    The statistics are accumulated in [long double], whose format the C
    standard leaves to the platform.  The code only converts unsigned
    64-bit integers and adds, subtracts, multiplies and divides. *)

Class LongDouble := {
  ld : Type;
  ld_zero : ld;
  ld_of_u64 : Z -> ld;
  ld_add : ld -> ld -> ld;
  ld_sub : ld -> ld -> ld;
  ld_mul : ld -> ld -> ld;
  ld_div : ld -> ld -> ld
}.

#[global] Instance ld_inhabited `{LongDouble} : Inhabited ld := populate ld_zero.

(** An instance on normalised rationals, used only to run the model on
    concrete inputs.  It is not the platform's [long double]: it never
    rounds and its division by 0 answers 0.  Every theorem about the
    statistics is stated for an arbitrary [LongDouble]. *)
#[global] Instance exact_ld : LongDouble := {|
  ld := Q;
  ld_zero := 0%Q;
  ld_of_u64 := fun z => inject_Z z;
  ld_add := fun a b => Qred (a + b)%Q;
  ld_sub := fun a b => Qred (a - b)%Q;
  ld_mul := fun a b => Qred (a * b)%Q;
  ld_div := fun a b => Qred (a / b)%Q
|}.

(** ** Configuration constants *)

Definition TIMER_BASE : Z := 0x10000000.
Definition TIMER_SIZE : Z := 0x100.
Definition PIC_BASE : Z := 0x10000F00.
Definition PIC_SIZE : Z := 0x100.

Definition TIMER_OFF_CTRL : Z := 0x00.
Definition TIMER_OFF_PERIOD : Z := 0x04.
Definition TIMER_OFF_COUNT : Z := 0x08.
Definition TIMER_OFF_STATUS : Z := 0x0C.

Definition PIC_OFF_MASK : Z := 0x00.
Definition PIC_OFF_PENDING : Z := 0x04.
Definition PIC_OFF_EOI : Z := 0x08.
Definition PIC_OFF_PRIORITY : Z := 0x0C.

Definition VECTOR_TIMER : Z := 32.

(** ** Device state *)

Record TimerDevice := mkTimer {
  enabled : Z;
  irq_enable : Z;
  period : Z;
  count : Z;
  status : Z;
  events_generated : Z
}.

(** ** Calls of the driving core that change state

    [Tick] is [iosub_tick], [AckIrq] is [iosub_ack_irq], [Write8], [Write16]
    and [Write32] are the three bus writes.  The reads, [iosub_irq_pending]
    and [iosub_get_irq_stats] leave the state alone. *)
Inductive call :=
| Tick
| AckIrq (vector : Z)
| Write8 (addr val : Z)
| Write16 (addr val : Z)
| Write32 (addr val : Z).

(** Number of [Tick]s in a history. *)
Fixpoint ticks (h : list call) : Z :=
  match h with
  | [] => 0
  | Tick :: h' => 1 + ticks h'
  | _ :: h' => ticks h'
  end.

Section Subsystem.
Context `{LD : LongDouble}.

Record PICDevice := mkPIC {
  mask_bits : Z;
  pending_bits : Z;
  last_event_cycle : list Z;
  samples_count : list Z;
  samples_mean : list ld;
  samples_m2 : list ld
}.

Record iosub := mkIosub {
  global_cycles : Z;
  timer : TimerDevice;
  pic : PICDevice
}.

Definition with_timer (t : TimerDevice) (s : iosub) : iosub :=
  mkIosub (global_cycles s) t (pic s).

Definition with_pic (p : PICDevice) (s : iosub) : iosub :=
  mkIosub (global_cycles s) (timer s) p.

Definition with_pending (b : Z) (p : PICDevice) : PICDevice :=
  mkPIC (mask_bits p) b (last_event_cycle p)
        (samples_count p) (samples_mean p) (samples_m2 p).

(** ** Helpers *)

Definition in_range (addr base size : Z) : bool :=
  (base <=? addr) && (addr <? u32 (base + size)).

Definition pic_signal_irq (vector : Z) (s : iosub) : iosub :=
  if 64 <=? vector then s
  else
    let p := pic s in
    with_pic
      (mkPIC (mask_bits p)
             (Z.lor (pending_bits p) (u32 (Z.shiftl 1 (vector mod 32))))
             (<[Z.to_nat vector := global_cycles s]> (last_event_cycle p))
             (samples_count p) (samples_mean p) (samples_m2 p))
      s.

Definition pic_record_latency (vector latency : Z) (s : iosub) : iosub :=
  if 64 <=? vector then s
  else
    let p := pic s in
    let i := Z.to_nat vector in
    let n := u64 (samples_count p !!! i + 1) in
    let delta := ld_sub (ld_of_u64 latency) (samples_mean p !!! i) in
    let mean := ld_add (samples_mean p !!! i) (ld_div delta (ld_of_u64 n)) in
    let delta2 := ld_sub (ld_of_u64 latency) mean in
    with_pic
      (mkPIC (mask_bits p) (pending_bits p) (last_event_cycle p)
             (<[i := n]> (samples_count p))
             (<[i := mean]> (samples_mean p))
             (<[i := ld_add (samples_m2 p !!! i) (ld_mul delta delta2)]>
                (samples_m2 p)))
      s.

(** ** Timer *)

Definition timer_tick (s : iosub) : iosub :=
  let t := timer s in
  if enabled t =? 0 then s
  else if period t =? 0 then s
  else if count t =? 0 then
    let s1 :=
      with_timer (mkTimer (enabled t) (irq_enable t) (period t) (count t)
                          1 (u64 (events_generated t + 1))) s in
    let s2 :=
      if irq_enable t =? 0 then s1
      else pic_signal_irq (VECTOR_TIMER mod 32) s1 in
    let t2 := timer s2 in
    with_timer (mkTimer (enabled t2) (irq_enable t2) (period t2) (period t2)
                        (status t2) (events_generated t2)) s2
  else
    with_timer (mkTimer (enabled t) (irq_enable t) (period t)
                        (u32 (count t - 1)) (status t) (events_generated t)) s.

(** ** PIC *)

Definition pic_get_pending_vector (s : iosub) : Z :=
  let pending := Z.land (pending_bits (pic s)) (not32 (mask_bits (pic s))) in
  if pending =? 0 then -1
  else builtin_ctz pending.

Definition pic_ack (vector : Z) (s : iosub) : iosub :=
  if 32 <=? vector then s
  else
    let event_cycle := last_event_cycle (pic s) !!! Z.to_nat vector in
    let s1 :=
      if event_cycle =? 0 then s
      else pic_record_latency vector (u64 (global_cycles s - event_cycle)) s in
    with_pic
      (with_pending
         (Z.land (pending_bits (pic s1)) (not32 (u32 (Z.shiftl 1 vector))))
         (pic s1))
      s1.

(** ** Memory-mapped registers *)

Definition mmio_read32 (addr : Z) (s : iosub) : Z :=
  if in_range addr TIMER_BASE TIMER_SIZE then
    let off := u32 (addr - TIMER_BASE) in
    if off =? TIMER_OFF_CTRL then
      Z.lor (Z.land (enabled (timer s)) 1)
            (u32 (Z.shiftl (Z.land (irq_enable (timer s)) 1) 1))
    else if off =? TIMER_OFF_PERIOD then period (timer s)
    else if off =? TIMER_OFF_COUNT then count (timer s)
    else if off =? TIMER_OFF_STATUS then status (timer s)
    else 0
  else if in_range addr PIC_BASE PIC_SIZE then
    let off := u32 (addr - PIC_BASE) in
    if off =? PIC_OFF_MASK then mask_bits (pic s)
    else if off =? PIC_OFF_PENDING then pending_bits (pic s)
    else if off =? PIC_OFF_EOI then 0
    else 0
  else 0.

Definition mmio_write32 (addr val : Z) (s : iosub) : iosub :=
  let t := timer s in
  let p := pic s in
  if in_range addr TIMER_BASE TIMER_SIZE then
    let off := u32 (addr - TIMER_BASE) in
    if off =? TIMER_OFF_CTRL then
      with_timer (mkTimer (u8 (Z.land val 1))
                          (u8 (Z.land (Z.shiftr val 1) 1))
                          (period t) (count t) (status t)
                          (events_generated t)) s
    else if off =? TIMER_OFF_PERIOD then
      with_timer (mkTimer (enabled t) (irq_enable t) val (count t)
                          (status t) (events_generated t)) s
    else if off =? TIMER_OFF_COUNT then
      with_timer (mkTimer (enabled t) (irq_enable t) (period t) val
                          (status t) (events_generated t)) s
    else if off =? TIMER_OFF_STATUS then
      with_timer (mkTimer (enabled t) (irq_enable t) (period t) (count t)
                          (u8 (Z.land val 0xFF)) (events_generated t)) s
    else s
  else if in_range addr PIC_BASE PIC_SIZE then
    let off := u32 (addr - PIC_BASE) in
    if off =? PIC_OFF_MASK then
      with_pic (mkPIC val (pending_bits p) (last_event_cycle p)
                      (samples_count p) (samples_mean p) (samples_m2 p)) s
    else if off =? PIC_OFF_PENDING then
      with_pic (with_pending (Z.land (pending_bits p) (not32 val)) p) s
    else if off =? PIC_OFF_EOI then pic_ack (Z.land val 0xFF) s
    else s
  else s.

(** ** The contract used by the core *)

Definition iosub_tick (s : iosub) : iosub :=
  timer_tick (mkIosub (u64 (global_cycles s + 1)) (timer s) (pic s)).

Definition iosub_irq_pending (s : iosub) : Z := pic_get_pending_vector s.

(** [vector] is a C [int]; the cast to [unsigned] is [u32]. *)
Definition iosub_ack_irq (vector : Z) (s : iosub) : Z * iosub :=
  if vector <? 0 then (0, s)
  else (1, pic_ack (u32 vector) s).

Definition iosub_read8 (addr : Z) (s : iosub) : Z :=
  let base := Z.land addr (not32 3) in
  let word := mmio_read32 base s in
  let shift := Z.land addr 3 * 8 in
  u8 (Z.land (Z.shiftr word shift) 0xFF).

Definition iosub_read16 (addr : Z) (s : iosub) : Z :=
  let base := Z.land addr (not32 3) in
  let word := mmio_read32 base s in
  let shift := Z.land addr 2 * 8 in
  u16 (Z.land (Z.shiftr word shift) 0xFFFF).

Definition iosub_read32 (addr : Z) (s : iosub) : Z := mmio_read32 addr s.

Definition iosub_write8 (addr val : Z) (s : iosub) : iosub :=
  let base := Z.land addr (not32 3) in
  let word := mmio_read32 base s in
  let shift := Z.land addr 3 * 8 in
  let mask := u32 (Z.shiftl 0xFF shift) in
  let neww := Z.lor (Z.land word (not32 mask)) (u32 (Z.shiftl val shift)) in
  mmio_write32 base neww s.

Definition iosub_write16 (addr val : Z) (s : iosub) : iosub :=
  let base := Z.land addr (not32 3) in
  let word := mmio_read32 base s in
  let shift := Z.land addr 2 * 8 in
  let mask := u32 (Z.shiftl 0xFFFF shift) in
  let neww := Z.lor (Z.land word (not32 mask)) (u32 (Z.shiftl val shift)) in
  mmio_write32 base neww s.

Definition iosub_write32 (addr val : Z) (s : iosub) : iosub :=
  mmio_write32 addr val s.

(** ** Metrics *)

Definition iosub_get_irq_stats (vector : Z) (s : iosub) : Z * ld * ld :=
  if 64 <=? vector then (0, ld_zero, ld_zero)
  else
    let i := Z.to_nat vector in
    let n := samples_count (pic s) !!! i in
    (n, samples_mean (pic s) !!! i,
     if 1 <? n then ld_div (samples_m2 (pic s) !!! i) (ld_of_u64 (u64 (n - 1)))
     else ld_zero).

Definition iosub_get_global_cycles (s : iosub) : Z := global_cycles s.

(** ** Initialisation: every field zeroed *)

Definition timer_reset : TimerDevice := mkTimer 0 0 0 0 0 0.

Definition pic_reset : PICDevice :=
  mkPIC 0 0 (replicate 64 0) (replicate 64 0)
        (replicate 64 ld_zero) (replicate 64 ld_zero).

Definition iosub_init_default : iosub := mkIosub 0 timer_reset pic_reset.

(** ** The test harness of the C file ([main] under BUILD_TEST_HARNESS) *)

Definition harness_setup : iosub :=
  iosub_write32 (TIMER_BASE + TIMER_OFF_CTRL) 0x3
    (iosub_write32 (TIMER_BASE + TIMER_OFF_PERIOD) 10 iosub_init_default).

Definition harness_cycle (s : iosub) : iosub :=
  let s1 := iosub_tick s in
  let v := iosub_irq_pending s1 in
  if 0 <=? v then snd (iosub_ack_irq v s1) else s1.

Fixpoint harness_run (n : nat) (s : iosub) : iosub :=
  match n with
  | O => s
  | S n' => harness_cycle (harness_run n' s)
  end.

(** The same loop, also logging the calls (1-based) in which the timer
    fired, latest first. *)
Fixpoint harness_log (n : nat) (s : iosub) : iosub * list Z :=
  match n with
  | O => (s, [])
  | S n' =>
      let '(before, fires) := harness_log n' s in
      let after := harness_cycle before in
      (after,
       if events_generated (timer after) =? events_generated (timer before)
       then fires
       else Z.of_nat n :: fires)
  end.

(** [n] consecutive [iosub_tick] calls. *)
Fixpoint run_ticks (n : nat) (s : iosub) : iosub :=
  match n with
  | O => s
  | S n' => iosub_tick (run_ticks n' s)
  end.

(** ** Histories of calls *)

Definition exec (c : call) (s : iosub) : iosub :=
  match c with
  | Tick => iosub_tick s
  | AckIrq vector => snd (iosub_ack_irq vector s)
  | Write8 addr val => iosub_write8 addr val s
  | Write16 addr val => iosub_write16 addr val s
  | Write32 addr val => iosub_write32 addr val s
  end.

(** The state after [iosub_init_default] followed by the calls of [h],
    the most recent call first. *)
Fixpoint after (h : list call) : iosub :=
  match h with
  | [] => iosub_init_default
  | c :: h' => exec c (after h')
  end.

(** What every state reached from reset satisfies: the four per-vector
    arrays keep their 64 slots, the pending bitmap is a 32-bit word, the
    sample counters are 64-bit words, and the statistics slots 32..63 have
    never been written. *)
Record inv (s : iosub) : Prop := mkInv {
  inv_len_event : length (last_event_cycle (pic s)) = 64%nat;
  inv_len_count : length (samples_count (pic s)) = 64%nat;
  inv_len_mean : length (samples_mean (pic s)) = 64%nat;
  inv_len_m2 : length (samples_m2 (pic s)) = 64%nat;
  inv_pending : 0 <= pending_bits (pic s) < 2 ^ 32;
  inv_counts : forall i : nat, (i < 64)%nat ->
    0 <= samples_count (pic s) !!! i < 2 ^ 64;
  inv_high : forall i : nat, (32 <= i < 64)%nat ->
    samples_count (pic s) !!! i = 0 /\
    samples_mean (pic s) !!! i = ld_zero /\
    samples_m2 (pic s) !!! i = ld_zero
}.

(** ** Summary

    [iosub_print_summary] formats three lines with [printf]; the model
    keeps the values it hands to [printf], in the order they are printed. *)
Record summary := mkSummary {
  sum_cycles : Z;
  sum_enabled : Z;
  sum_irq_enable : Z;
  sum_period : Z;
  sum_count : Z;
  sum_events : Z;
  sum_timer_vector : Z;
  sum_samples : Z;
  sum_mean_latency : ld;
  sum_var : ld
}.

Definition iosub_print_summary (s : iosub) : summary :=
  let '(c, m, v) := iosub_get_irq_stats VECTOR_TIMER s in
  mkSummary (global_cycles s)
            (enabled (timer s)) (irq_enable (timer s)) (period (timer s))
            (count (timer s)) (events_generated (timer s))
            VECTOR_TIMER c m v.

End Subsystem.

(** ** The register map

    The addresses at which [mmio_read32] returns a register, and those at
    which [mmio_write32] has an effect. *)
Definition read_registers : list Z :=
  [TIMER_BASE + TIMER_OFF_CTRL; TIMER_BASE + TIMER_OFF_PERIOD;
   TIMER_BASE + TIMER_OFF_COUNT; TIMER_BASE + TIMER_OFF_STATUS;
   PIC_BASE + PIC_OFF_MASK; PIC_BASE + PIC_OFF_PENDING].

Definition write_registers : list Z :=
  read_registers ++ [PIC_BASE + PIC_OFF_EOI].

(** The three registers that store the written word as it is. *)
Definition plain_registers : list Z :=
  [TIMER_BASE + TIMER_OFF_PERIOD; TIMER_BASE + TIMER_OFF_COUNT;
   PIC_BASE + PIC_OFF_MASK].

(** ** Concrete states and histories, on the exact instance *)

(** The harness set-up as a history: PERIOD = 10, then CTRL = 0x3. *)
Definition setup_calls : list call :=
  [Write32 (TIMER_BASE + TIMER_OFF_CTRL) 0x3;
   Write32 (TIMER_BASE + TIMER_OFF_PERIOD) 10].

(** Set-up and eleven ticks: the timer fired in call 1, was acknowledged,
    and has counted down to 0 again. *)
Definition eleven_ticks : list call :=
  replicate 10 Tick ++ [AckIrq 0; Tick] ++ setup_calls.

(** Set-up, a firing in call 1, acknowledgments in calls 2 and 3. *)
Definition two_samples : list call :=
  [AckIrq 0; Tick; AckIrq 0; Tick; Tick] ++ setup_calls.

(** The state right after the first firing of the harness scenario. *)
Definition fired_once : @iosub exact_ld := iosub_tick harness_setup.

Definition acked_once : @iosub exact_ld := snd (iosub_ack_irq 0 fired_once).
Definition acked_twice : @iosub exact_ld := snd (iosub_ack_irq 0 acked_once).

(** One tick after reset, the timer still disabled. *)
Definition idle_cycle_1 : @iosub exact_ld := iosub_tick iosub_init_default.

(** PERIOD = 10, then CTRL = 0x1: the timer enabled, its interrupt not. *)
Definition polled_calls : list call :=
  [Write32 (TIMER_BASE + TIMER_OFF_CTRL) 0x1;
   Write32 (TIMER_BASE + TIMER_OFF_PERIOD) 10].

(** The state after the first tick of the polled timer, which fires. *)
Definition polled_fired : @iosub exact_ld := iosub_tick (after polled_calls).

(** The state right after the firing in call 12 of [eleven_ticks]. *)
Definition fired_twelfth : @iosub exact_ld := iosub_tick (after eleven_ticks).

(** Vectors 0, 5, 8, 16 and 24 pending, nothing masked. *)
Definition five_pending : @iosub exact_ld :=
  with_pic (with_pending 0x01010121 pic_reset) iosub_init_default.

(** * Properties *)

(** ** Bits of 32-bit words *)

Lemma u32_range x : 0 <= u32 x < 2 ^ 32.
Proof. unfold u32. apply Z.mod_pos_bound. lia. Qed.

Lemma u32_small x : 0 <= x < 2 ^ 32 -> u32 x = x.
Proof. intros H. unfold u32. now apply Z.mod_small. Qed.

Lemma testbit_u32 x n : Z.testbit (u32 x) n = (n <? 32) && Z.testbit x n.
Proof. unfold u32. apply Z.testbit_mod_pow2. lia. Qed.

Lemma testbit_not32 x n :
  0 <= n -> Z.testbit (not32 x) n = (n <? 32) && negb (Z.testbit x n).
Proof. intros H. unfold not32. now rewrite testbit_u32, Z.lnot_spec. Qed.

Lemma testbit_high x n : 0 <= x < 2 ^ 32 -> 32 <= n -> Z.testbit x n = false.
Proof.
  intros Hx Hn. rewrite <- (u32_small x Hx), testbit_u32.
  destruct (Z.ltb_spec n 32); [lia | reflexivity].
Qed.

Lemma u32_fixed_range x : u32 x = x -> 0 <= x < 2 ^ 32.
Proof. intros <-. apply u32_range. Qed.

Lemma land_u32_range a b : 0 <= b < 2 ^ 32 -> 0 <= Z.land a b < 2 ^ 32.
Proof.
  intros Hb. apply u32_fixed_range, Z.bits_inj'. intros n Hn.
  rewrite testbit_u32, Z.land_spec.
  destruct (Z.ltb_spec n 32) as [Hlt | Hge]; [reflexivity |].
  now rewrite (testbit_high b n Hb Hge), andb_false_r.
Qed.

Lemma land_u32_range_l a b : 0 <= a < 2 ^ 32 -> 0 <= Z.land a b < 2 ^ 32.
Proof. intros Ha. rewrite Z.land_comm. now apply land_u32_range. Qed.

Lemma lor_u32_range a b :
  0 <= a < 2 ^ 32 -> 0 <= b < 2 ^ 32 -> 0 <= Z.lor a b < 2 ^ 32.
Proof.
  intros Ha Hb. apply u32_fixed_range, Z.bits_inj'. intros n Hn.
  rewrite testbit_u32, Z.lor_spec.
  destruct (Z.ltb_spec n 32) as [Hlt | Hge]; [reflexivity |].
  now rewrite (testbit_high a n Ha Hge), (testbit_high b n Hb Hge).
Qed.

Lemma not32_range x : 0 <= not32 x < 2 ^ 32.
Proof. apply u32_range. Qed.

Lemma land_1 x : Z.land x 1 = x mod 2.
Proof. exact (Z.land_ones x 1 ltac:(lia)). Qed.

Lemma land_3 x : Z.land x 3 = x mod 4.
Proof. exact (Z.land_ones x 2 ltac:(lia)). Qed.

(** Write-one-to-clear applied to a read-modify-write word: only the lane
    [m] survives, minus the bits of [x]. *)
Lemma w1c_lane p m x :
  0 <= p < 2 ^ 32 ->
  Z.land p (not32 (Z.lor (Z.land p (not32 m)) x)) =
  Z.land (Z.land p m) (not32 x).
Proof.
  intros Hp. apply Z.bits_inj'. intros n Hn.
  rewrite !Z.land_spec, !testbit_not32, Z.lor_spec, Z.land_spec,
    testbit_not32 by assumption.
  destruct (Z.ltb_spec n 32) as [Hlt | Hge].
  - destruct (Z.testbit p n), (Z.testbit m n), (Z.testbit x n); reflexivity.
  - now rewrite (testbit_high p n Hp Hge).
Qed.

(** ** Count of trailing zeros *)

Lemma ctz_loop_spec fuel : forall x i,
  0 <= i < Z.of_nat fuel -> Z.testbit x i = true ->
  0 <= ctz_loop fuel x <= i /\
  Z.testbit x (ctz_loop fuel x) = true /\
  forall j, 0 <= j < ctz_loop fuel x -> Z.testbit x j = false.
Proof.
  induction fuel as [| fuel IH]; intros x i Hi Hbit; [lia |].
  cbn [ctz_loop]. destruct (Z.odd x) eqn:Hodd.
  - rewrite Z.bit0_odd. repeat split; [lia | lia | assumption | intros; lia].
  - assert (Hi0 : i <> 0).
    { intros ->. rewrite Z.bit0_odd in Hbit. congruence. }
    destruct (IH (Z.shiftr x 1) (i - 1)) as (Hr & Hset & Hlow).
    + lia.
    + rewrite Z.shiftr_spec by lia. now replace (i - 1 + 1) with i by lia.
    + repeat split; try lia.
      * rewrite Z.shiftr_spec in Hset by lia.
        now rewrite (Z.add_comm 1).
      * intros j Hj. destruct (Z.eq_dec j 0) as [-> | Hj0].
        { now rewrite Z.bit0_odd. }
        specialize (Hlow (j - 1)). rewrite Z.shiftr_spec in Hlow by lia.
        replace (j - 1 + 1) with j in Hlow by lia. apply Hlow. lia.
Qed.

Lemma nonzero_word_has_bit p :
  0 <= p < 2 ^ 32 -> p <> 0 -> exists i, 0 <= i < 32 /\ Z.testbit p i = true.
Proof.
  intros Hp Hnz. exists (Z.log2 p). split.
  - split; [apply Z.log2_nonneg |]. apply Z.log2_lt_pow2; lia.
  - apply Z.bit_log2. lia.
Qed.

Lemma builtin_ctz_spec p :
  0 <= p < 2 ^ 32 -> p <> 0 ->
  0 <= builtin_ctz p < 32 /\
  Z.testbit p (builtin_ctz p) = true /\
  forall j, 0 <= j < builtin_ctz p -> Z.testbit p j = false.
Proof.
  intros Hp Hnz. destruct (nonzero_word_has_bit p Hp Hnz) as (i & Hi & Hbit).
  destruct (ctz_loop_spec 32 p i) as (Hr & Hset & Hlow); [lia | assumption |].
  unfold builtin_ctz. repeat split; try assumption; lia.
Qed.

Section Properties.
Context `{LD : LongDouble}.

(** ** Register decoding *)

Lemma read32_pending s :
  mmio_read32 (PIC_BASE + PIC_OFF_PENDING) s = pending_bits (pic s).
Proof. reflexivity. Qed.

Lemma write32_pending val s :
  mmio_write32 (PIC_BASE + PIC_OFF_PENDING) val s =
  with_pic (with_pending (Z.land (pending_bits (pic s)) (not32 val)) (pic s)) s.
Proof. reflexivity. Qed.

Lemma byte_lane_fits v k : 0 <= v < 2 ^ 8 -> 0 <= k <= 3 ->
  u32 (Z.shiftl v (8 * k)) = Z.shiftl v (8 * k).
Proof.
  intros Hv Hk. apply u32_small. rewrite Z.shiftl_mul_pow2 by lia.
  assert (Hc : k = 0 \/ k = 1 \/ k = 2 \/ k = 3) by lia.
  destruct Hc as [-> | [-> | [-> | ->]]]; cbn; lia.
Qed.

Lemma half_lane_fits v h : 0 <= v < 2 ^ 16 -> 0 <= h <= 1 ->
  u32 (Z.shiftl v (16 * h)) = Z.shiftl v (16 * h).
Proof.
  intros Hv Hh. apply u32_small. rewrite Z.shiftl_mul_pow2 by lia.
  assert (Hc : h = 0 \/ h = 1) by lia.
  destruct Hc as [-> | ->]; cbn; lia.
Qed.

(** C5. A byte write into the PENDING word at byte offset [k] leaves
    [pending_bits = (old & (0xFF << 8k)) & ~(v << 8k)]: the read-modify-write
    word goes through the write-1-to-clear port, so every pending bit outside
    the written lane is cleared.  A half-word write does the same with the
    16-bit lane selected by address bit 1. *)
Theorem write_pending_subword (s : iosub) (k v : Z) :
  0 <= pending_bits (pic s) < 2 ^ 32 ->
  0 <= k <= 3 ->
  (0 <= v < 2 ^ 8 ->
   pending_bits (pic (iosub_write8 (PIC_BASE + PIC_OFF_PENDING + k) v s)) =
   Z.land (Z.land (pending_bits (pic s)) (Z.shiftl 0xFF (8 * k)))
          (not32 (Z.shiftl v (8 * k)))) /\
  (0 <= v < 2 ^ 16 ->
   pending_bits (pic (iosub_write16 (PIC_BASE + PIC_OFF_PENDING + k) v s)) =
   Z.land (Z.land (pending_bits (pic s)) (Z.shiftl 0xFFFF (16 * (k / 2))))
          (not32 (Z.shiftl v (16 * (k / 2))))).
Proof.
  intros Hp Hk.
  assert (Hc : k = 0 \/ k = 1 \/ k = 2 \/ k = 3) by lia.
  split; intros Hv.
  - unfold iosub_write8.
    replace (Z.land (PIC_BASE + PIC_OFF_PENDING + k) (not32 3))
      with (PIC_BASE + PIC_OFF_PENDING)
      by (destruct Hc as [-> | [-> | [-> | ->]]]; reflexivity).
    replace (Z.land (PIC_BASE + PIC_OFF_PENDING + k) 3 * 8) with (8 * k)
      by (destruct Hc as [-> | [-> | [-> | ->]]]; reflexivity).
    rewrite read32_pending, write32_pending. cbn [pic with_pic pending_bits with_pending].
    rewrite (byte_lane_fits 0xFF k), (byte_lane_fits v k) by lia.
    now apply w1c_lane.
  - unfold iosub_write16.
    replace (Z.land (PIC_BASE + PIC_OFF_PENDING + k) (not32 3))
      with (PIC_BASE + PIC_OFF_PENDING)
      by (destruct Hc as [-> | [-> | [-> | ->]]]; reflexivity).
    replace (Z.land (PIC_BASE + PIC_OFF_PENDING + k) 2 * 8) with (16 * (k / 2))
      by (destruct Hc as [-> | [-> | [-> | ->]]]; reflexivity).
    rewrite read32_pending, write32_pending. cbn [pic with_pic pending_bits with_pending].
    assert (Hh : 0 <= k / 2 <= 1) by (Z.div_mod_to_equations; lia).
    rewrite (half_lane_fits 0xFFFF (k / 2)), (half_lane_fits v (k / 2)) by lia.
    now apply w1c_lane.
Qed.

(** C6. [irq_pending] looks at [pending_bits & ~mask_bits]: when that is
    zero it answers -1, otherwise the index of its lowest set bit; with
    vectors 0 and 5 both pending and unmasked the answer is 0. *)
Theorem irq_pending_lowest_unmasked (s : iosub) :
  let p := Z.land (pending_bits (pic s)) (not32 (mask_bits (pic s))) in
  (p = 0 -> iosub_irq_pending s = -1) /\
  (p <> 0 ->
   0 <= iosub_irq_pending s < 32 /\
   Z.testbit p (iosub_irq_pending s) = true /\
   forall j, 0 <= j < iosub_irq_pending s -> Z.testbit p j = false) /\
  (Z.testbit (pending_bits (pic s)) 0 = true ->
   Z.testbit (pending_bits (pic s)) 5 = true ->
   Z.testbit (mask_bits (pic s)) 0 = false ->
   Z.testbit (mask_bits (pic s)) 5 = false ->
   iosub_irq_pending s = 0).
Proof.
  intros p.
  assert (Hp : 0 <= p < 2 ^ 32) by (apply land_u32_range, not32_range).
  assert (Hnz : p <> 0 ->
    iosub_irq_pending s = builtin_ctz p).
  { intros Hne. unfold iosub_irq_pending, pic_get_pending_vector. fold p.
    destruct (Z.eqb_spec p 0); [contradiction | reflexivity]. }
  split; [| split].
  - intros H0. unfold iosub_irq_pending, pic_get_pending_vector. fold p.
    now rewrite H0.
  - intros Hne. rewrite (Hnz Hne). now apply builtin_ctz_spec.
  - intros P0 _ M0 _.
    assert (Hb0 : Z.testbit p 0 = true).
    { unfold p. rewrite Z.land_spec, testbit_not32, P0, M0 by lia. reflexivity. }
    assert (Hne : p <> 0).
    { intros H0. rewrite H0 in Hb0. cbn in Hb0. discriminate. }
    rewrite (Hnz Hne).
    destruct (builtin_ctz_spec p Hp Hne) as (Hr & _ & Hlow).
    destruct (Z.eq_dec (builtin_ctz p) 0) as [-> | Hpos]; [reflexivity |].
    rewrite Hlow in Hb0 by lia. discriminate.
Qed.

(** C8. Writing a 32-bit [v] and reading the same register back gives [v]
    for PERIOD, COUNT and MASK, the low 8 bits of [v] for STATUS, and bits
    0-1 of [v] for CTRL. *)
Theorem write32_read32_roundtrip (s : iosub) (v : Z) :
  0 <= v < 2 ^ 32 ->
  iosub_read32 (TIMER_BASE + TIMER_OFF_CTRL)
    (iosub_write32 (TIMER_BASE + TIMER_OFF_CTRL) v s) = Z.land v 3 /\
  iosub_read32 (TIMER_BASE + TIMER_OFF_PERIOD)
    (iosub_write32 (TIMER_BASE + TIMER_OFF_PERIOD) v s) = v /\
  iosub_read32 (TIMER_BASE + TIMER_OFF_COUNT)
    (iosub_write32 (TIMER_BASE + TIMER_OFF_COUNT) v s) = v /\
  iosub_read32 (TIMER_BASE + TIMER_OFF_STATUS)
    (iosub_write32 (TIMER_BASE + TIMER_OFF_STATUS) v s) = Z.land v 0xFF /\
  iosub_read32 (PIC_BASE + PIC_OFF_MASK)
    (iosub_write32 (PIC_BASE + PIC_OFF_MASK) v s) = v.
Proof.
  intros Hv. repeat split.
  - change (iosub_read32 (TIMER_BASE + TIMER_OFF_CTRL)
              (iosub_write32 (TIMER_BASE + TIMER_OFF_CTRL) v s))
      with (Z.lor (Z.land (u8 (Z.land v 1)) 1)
              (u32 (Z.shiftl (Z.land (u8 (Z.land (Z.shiftr v 1) 1)) 1) 1))).
    rewrite !land_1, land_3, Z.shiftr_div_pow2, Z.shiftl_mul_pow2 by lia.
    change (2 ^ 1) with 2.
    assert (H0 : v mod 2 = 0 \/ v mod 2 = 1)
      by (Z.div_mod_to_equations; lia).
    assert (H1 : (v / 2) mod 2 = 0 \/ (v / 2) mod 2 = 1)
      by (Z.div_mod_to_equations; lia).
    assert (H4 : v mod 4 = v mod 2 + 2 * ((v / 2) mod 2))
      by (Z.div_mod_to_equations; lia).
    rewrite H4. destruct H0 as [-> | ->], H1 as [-> | ->]; reflexivity.
  - change (iosub_read32 (TIMER_BASE + TIMER_OFF_STATUS)
              (iosub_write32 (TIMER_BASE + TIMER_OFF_STATUS) v s))
      with (u8 (Z.land v 0xFF)).
    change 0xFF with (Z.ones 8). rewrite Z.land_ones by lia.
    unfold u8. apply Z.mod_mod. lia.
Qed.

(** ** The timer state machine *)

Lemma pic_signal_irq_0 s :
  pic_signal_irq 0 s =
  with_pic
    (mkPIC (mask_bits (pic s)) (Z.lor (pending_bits (pic s)) 1)
           (<[0%nat := global_cycles s]> (last_event_cycle (pic s)))
           (samples_count (pic s)) (samples_mean (pic s)) (samples_m2 (pic s)))
    s.
Proof. reflexivity. Qed.

Lemma iosub_tick_fire s :
  enabled (timer s) <> 0 -> period (timer s) <> 0 -> count (timer s) = 0 ->
  timer (iosub_tick s) =
    mkTimer (enabled (timer s)) (irq_enable (timer s)) (period (timer s))
            (period (timer s)) 1 (u64 (events_generated (timer s) + 1)) /\
  global_cycles (iosub_tick s) = u64 (global_cycles s + 1) /\
  pic (iosub_tick s) =
    if irq_enable (timer s) =? 0 then pic s
    else pic (pic_signal_irq 0
                (mkIosub (u64 (global_cycles s + 1)) (timer s) (pic s))).
Proof.
  intros He Hp Hc. unfold iosub_tick, timer_tick. cbn [timer].
  destruct (Z.eqb_spec (enabled (timer s)) 0); [contradiction |].
  destruct (Z.eqb_spec (period (timer s)) 0); [contradiction |].
  rewrite Hc. cbn [Z.eqb].
  destruct (Z.eqb_spec (irq_enable (timer s)) 0); repeat split.
Qed.

Lemma iosub_tick_count_down s :
  enabled (timer s) <> 0 -> period (timer s) <> 0 -> count (timer s) <> 0 ->
  iosub_tick s =
    mkIosub (u64 (global_cycles s + 1))
      (mkTimer (enabled (timer s)) (irq_enable (timer s)) (period (timer s))
               (u32 (count (timer s) - 1)) (status (timer s))
               (events_generated (timer s)))
      (pic s).
Proof.
  intros He Hp Hc. unfold iosub_tick, timer_tick. cbn [timer].
  destruct (Z.eqb_spec (enabled (timer s)) 0); [contradiction |].
  destruct (Z.eqb_spec (period (timer s)) 0); [contradiction |].
  destruct (Z.eqb_spec (count (timer s)) 0); [contradiction | reflexivity].
Qed.

(** While the counter is at least [n], [n] ticks only count down. *)
Lemma run_ticks_count_down n : forall s,
  enabled (timer s) <> 0 -> period (timer s) <> 0 ->
  Z.of_nat n <= count (timer s) < 2 ^ 32 ->
  timer (run_ticks n s) =
    mkTimer (enabled (timer s)) (irq_enable (timer s)) (period (timer s))
            (count (timer s) - Z.of_nat n) (status (timer s))
            (events_generated (timer s)).
Proof.
  induction n as [| n IH]; intros s He Hp Hc.
  - cbn [run_ticks].
    replace (count (timer s) - Z.of_nat 0) with (count (timer s)) by lia.
    now destruct (timer s).
  - cbn [run_ticks]. specialize (IH s He Hp ltac:(lia)).
    rewrite iosub_tick_count_down; rewrite IH;
      cbn [timer enabled period count irq_enable status events_generated];
      try assumption; try lia.
    f_equal. rewrite u32_small by lia. lia.
Qed.

(** X8. After a firing the counter is reloaded with the whole period, so the
    next [period] ticks only count down and the timer fires again on the
    tick after those: two consecutive firings are [period + 1] calls apart. *)
Lemma timer_refire_gap s P :
  enabled (timer s) <> 0 -> period (timer s) = P -> 0 < P < 2 ^ 32 ->
  count (timer s) = 0 ->
  let e1 := u64 (events_generated (timer s) + 1) in
  events_generated (timer (run_ticks 1 s)) = e1 /\
  (forall n : nat, (1 <= n <= Z.to_nat P + 1)%nat ->
     events_generated (timer (run_ticks n s)) = e1) /\
  events_generated (timer (run_ticks (Z.to_nat P + 2) s)) = u64 (e1 + 1).
Proof.
  intros He HP Hr Hc e1.
  assert (Hfirst : timer (run_ticks 1 s) =
            mkTimer (enabled (timer s)) (irq_enable (timer s)) P P 1 e1).
  { cbn [run_ticks].
    destruct (iosub_tick_fire s) as (Ht & _); try assumption; try lia.
    rewrite Ht, HP. reflexivity. }
  assert (Hshift : forall n, run_ticks (n + 1) s = run_ticks n (run_ticks 1 s)).
  { induction n as [| n IHn]; [reflexivity |].
    cbn [Nat.add run_ticks]. now rewrite IHn. }
  assert (Hdown : forall n : nat, (n <= Z.to_nat P)%nat ->
            timer (run_ticks (n + 1) s) =
            mkTimer (enabled (timer s)) (irq_enable (timer s)) P
                    (P - Z.of_nat n) 1 e1).
  { intros n Hn. rewrite Hshift, run_ticks_count_down; rewrite Hfirst;
      cbn [enabled period count irq_enable status events_generated];
      try assumption; try lia. reflexivity. }
  split; [| split].
  - now rewrite Hfirst.
  - intros n Hn. replace n with ((n - 1) + 1)%nat by lia.
    rewrite Hdown by lia. reflexivity.
  - replace (Z.to_nat P + 2)%nat with (S (Z.to_nat P + 1)) by lia.
    cbn [run_ticks].
    destruct (iosub_tick_fire (run_ticks (Z.to_nat P + 1) s)) as (Ht & _);
      rewrite ?Hdown by lia;
      cbn [enabled period count events_generated]; try assumption; try lia.
    rewrite Ht, Hdown by lia. reflexivity.
Qed.

(** The logging loop goes through the same states as the plain one. *)
Lemma harness_log_state n s : fst (harness_log n s) = harness_run n s.
Proof.
  induction n as [| n IH]; [reflexivity |].
  cbn [harness_log harness_run]. rewrite <- IH.
  now destruct (harness_log n s).
Qed.

(** C1. What the harness scenario does: PERIOD = 10, CTRL = 0x3, 1000
    cycles of tick and immediate acknowledgment leave [events_generated]
    at 91, not 100: the timer fires in calls 1, 12, 23, ..., 991, eleven
    calls apart and not ten. *)
Theorem harness_events_generated :
  events_generated (timer (harness_run 1000 harness_setup)) = 91 /\
  rev (snd (harness_log 1000 harness_setup)) =
    map (fun k => 1 + 11 * Z.of_nat k) (seq 0 91).
Proof. split; vm_compute; reflexivity. Qed.

(** C10. With the timer enabled, a period above 0 and the counter at its
    reset value 0, the next tick fires at once: [events_generated] goes up
    by one, status bit 0 is set, the counter is reloaded, and with
    [irq_enable] set pending bit 0 of the PIC is raised and the new cycle is
    recorded as the firing cycle of vector 0. *)
Theorem first_tick_fires (s : iosub) :
  enabled (timer s) <> 0 -> 0 < period (timer s) -> count (timer s) = 0 ->
  let s' := iosub_tick s in
  events_generated (timer s') = u64 (events_generated (timer s) + 1) /\
  Z.testbit (status (timer s')) 0 = true /\
  count (timer s') = period (timer s) /\
  (irq_enable (timer s) <> 0 ->
   Z.testbit (pending_bits (pic s')) 0 = true /\
   last_event_cycle (pic s') =
     <[0%nat := global_cycles s']> (last_event_cycle (pic s))).
Proof.
  intros He Hp Hc s'. subst s'.
  destruct (iosub_tick_fire s) as (Ht & Hg & Hpic); try assumption; try lia.
  rewrite Ht, Hg, Hpic. cbn [events_generated status count].
  destruct (Z.eqb_spec (irq_enable (timer s)) 0); repeat split;
    try contradiction.
  rewrite pic_signal_irq_0. cbn [pic with_pic pending_bits].
  rewrite Z.lor_spec. apply orb_true_r.
Qed.

(** ** The invariant of reachable states *)

Lemma inv_init : inv iosub_init_default.
Proof.
  constructor; cbn [iosub_init_default pic pic_reset last_event_cycle
    samples_count samples_mean samples_m2 pending_bits];
    rewrite ?length_replicate; try reflexivity; try lia.
  - intros i Hi. rewrite lookup_total_replicate_2 by assumption. lia.
  - intros i Hi. rewrite !lookup_total_replicate_2 by lia. auto.
Qed.

Lemma inv_same_pic s s' : pic s' = pic s -> inv s -> inv s'.
Proof. intros E [? ? ? ? ? ? ?]. constructor; rewrite E; assumption. Qed.

Lemma inv_with_timer t s : inv s -> inv (with_timer t s).
Proof. now apply inv_same_pic. Qed.

Lemma inv_with_cycles g s : inv s -> inv (mkIosub g (timer s) (pic s)).
Proof. now apply inv_same_pic. Qed.

Lemma inv_with_pending b s :
  0 <= b < 2 ^ 32 -> inv s -> inv (with_pic (with_pending b (pic s)) s).
Proof. intros Hb [? ? ? ? ? ? ?]. constructor; assumption. Qed.

Lemma inv_signal vector s : inv s -> inv (pic_signal_irq vector s).
Proof.
  intros Hs. unfold pic_signal_irq.
  destruct (64 <=? vector); [assumption |].
  destruct Hs as [? ? ? ? ? ? ?].
  constructor; cbn [pic with_pic last_event_cycle samples_count samples_mean
    samples_m2 pending_bits]; try assumption.
  - now rewrite length_insert.
  - apply lor_u32_range; [assumption | apply u32_range].
Qed.

Lemma inv_record vector latency s :
  vector < 32 -> inv s -> inv (pic_record_latency vector latency s).
Proof.
  intros Hv Hs. unfold pic_record_latency.
  destruct (64 <=? vector); [assumption |].
  destruct Hs as [? ? ? ? ? Hcnt Hhigh].
  constructor; cbn [pic with_pic last_event_cycle samples_count samples_mean
    samples_m2 pending_bits]; rewrite ?length_insert; try assumption.
  - intros i Hi. rewrite list_lookup_total_insert.
    destruct (decide _); [| now apply Hcnt].
    unfold u64. apply Z.mod_pos_bound. lia.
  - intros i Hi. rewrite !list_lookup_total_insert_ne by lia. now apply Hhigh.
Qed.

Lemma inv_ack vector s : inv s -> inv (pic_ack vector s).
Proof.
  intros Hs. unfold pic_ack.
  destruct (Z.leb_spec 32 vector); [assumption |].
  set (s1 := if _ =? 0 then s else _).
  assert (Hs1 : inv s1).
  { subst s1. destruct (_ =? 0); [assumption |]. apply inv_record; [lia | assumption]. }
  apply inv_with_pending; [| assumption].
  apply land_u32_range, not32_range.
Qed.

Lemma inv_timer_tick s : inv s -> inv (timer_tick s).
Proof.
  intros Hs. unfold timer_tick.
  destruct (enabled (timer s) =? 0); [assumption |].
  destruct (period (timer s) =? 0); [assumption |].
  destruct (count (timer s) =? 0).
  - apply inv_with_timer.
    destruct (irq_enable (timer s) =? 0).
    + now apply inv_with_timer.
    + now apply inv_signal, inv_with_timer.
  - now apply inv_with_timer.
Qed.

Lemma inv_iosub_tick s : inv s -> inv (iosub_tick s).
Proof.
  intros Hs. now apply inv_timer_tick, inv_with_cycles.
Qed.

Lemma inv_mmio_write32 addr val s : inv s -> inv (mmio_write32 addr val s).
Proof.
  intros Hs. unfold mmio_write32.
  destruct (in_range addr TIMER_BASE TIMER_SIZE).
  { repeat (match goal with |- context [if ?c then _ else _] => destruct c end);
      try assumption; now apply inv_with_timer. }
  destruct (in_range addr PIC_BASE PIC_SIZE); [| assumption].
  destruct (_ =? PIC_OFF_MASK).
  { destruct Hs as [? ? ? ? ? ? ?]. constructor; assumption. }
  destruct (_ =? PIC_OFF_PENDING).
  { apply inv_with_pending; [| assumption]. apply land_u32_range, not32_range. }
  destruct (_ =? PIC_OFF_EOI); [| assumption].
  now apply inv_ack.
Qed.

Lemma inv_exec c s : inv s -> inv (exec c s).
Proof.
  intros Hs. destruct c as [| vector | addr val | addr val | addr val];
    cbn [exec].
  - now apply inv_iosub_tick.
  - unfold iosub_ack_irq. destruct (vector <? 0); cbn [snd];
      [assumption | now apply inv_ack].
  - now apply inv_mmio_write32.
  - now apply inv_mmio_write32.
  - now apply inv_mmio_write32.
Qed.

Lemma inv_after h : inv (after h).
Proof.
  induction h as [| c h IH]; [apply inv_init | now apply inv_exec].
Qed.

(** The clock counts the [Tick]s of the history, modulo 2^64. *)
Lemma mmio_write32_cycles addr val s :
  global_cycles (mmio_write32 addr val s) = global_cycles s.
Proof.
  unfold mmio_write32, pic_ack, pic_record_latency.
  repeat (match goal with |- context [if ?c then _ else _] => destruct c end);
    reflexivity.
Qed.

Lemma timer_tick_cycles s : global_cycles (timer_tick s) = global_cycles s.
Proof.
  unfold timer_tick, pic_signal_irq.
  repeat (match goal with |- context [if ?c then _ else _] => destruct c end);
    reflexivity.
Qed.

Lemma exec_cycles c s :
  global_cycles (exec c s) =
  match c with Tick => u64 (global_cycles s + 1) | _ => global_cycles s end.
Proof.
  destruct c as [| vector | addr val | addr val | addr val]; cbn [exec].
  - unfold iosub_tick. now rewrite timer_tick_cycles.
  - unfold iosub_ack_irq, pic_ack, pic_record_latency.
    repeat (match goal with |- context [if ?c then _ else _] => destruct c end);
      reflexivity.
  - apply mmio_write32_cycles.
  - apply mmio_write32_cycles.
  - apply mmio_write32_cycles.
Qed.

Lemma ticks_nonneg h : 0 <= ticks h.
Proof.
  induction h as [| c h IH]; cbn [ticks]; [lia |]. destruct c; lia.
Qed.

Lemma after_cycles h : global_cycles (after h) = u64 (ticks h).
Proof.
  induction h as [| c h IH]; [reflexivity |].
  cbn [after]. rewrite exec_cycles, IH. unfold u64.
  destruct c; cbn [ticks]; try reflexivity.
  rewrite Z.add_comm. apply Zplus_mod_idemp_r.
Qed.

(** ** Acknowledgment and signalling *)

Lemma pic_ack_dropped vector s : 32 <= vector -> pic_ack vector s = s.
Proof.
  intros Hv. unfold pic_ack. now destruct (Z.leb_spec 32 vector); [| lia].
Qed.

Lemma pic_ack_no_event vector s :
  vector < 32 -> last_event_cycle (pic s) !!! Z.to_nat vector = 0 ->
  pic_ack vector s =
  with_pic
    (with_pending
       (Z.land (pending_bits (pic s)) (not32 (u32 (Z.shiftl 1 vector))))
       (pic s)) s.
Proof.
  intros Hv He. unfold pic_ack.
  destruct (Z.leb_spec 32 vector); [lia |]. now rewrite He.
Qed.

Lemma pic_ack_event vector s :
  vector < 32 -> last_event_cycle (pic s) !!! Z.to_nat vector <> 0 ->
  pic_ack vector s =
  let s1 :=
    pic_record_latency vector
      (u64 (global_cycles s - last_event_cycle (pic s) !!! Z.to_nat vector)) s in
  with_pic
    (with_pending
       (Z.land (pending_bits (pic s1)) (not32 (u32 (Z.shiftl 1 vector))))
       (pic s1)) s1.
Proof.
  intros Hv He. unfold pic_ack.
  destruct (Z.leb_spec 32 vector); [lia |].
  now destruct (Z.eqb_spec (last_event_cycle (pic s) !!! Z.to_nat vector) 0).
Qed.

Lemma pic_ack_keeps_event_cycles vector s :
  last_event_cycle (pic (pic_ack vector s)) = last_event_cycle (pic s).
Proof.
  unfold pic_ack, pic_record_latency.
  repeat (match goal with |- context [if ?c then _ else _] => destruct c end);
    reflexivity.
Qed.

Lemma pic_record_latency_count vector latency s :
  0 <= vector < 64 ->
  (Z.to_nat vector < length (samples_count (pic s)))%nat ->
  samples_count (pic (pic_record_latency vector latency s)) !!! Z.to_nat vector
  = u64 (samples_count (pic s) !!! Z.to_nat vector + 1).
Proof.
  intros Hv Hlen. unfold pic_record_latency.
  destruct (Z.leb_spec 64 vector); [lia |].
  cbn [pic with_pic samples_count].
  now rewrite list_lookup_total_insert_eq.
Qed.

Lemma pic_record_latency_length vector latency s :
  length (samples_count (pic (pic_record_latency vector latency s))) =
  length (samples_count (pic s)).
Proof.
  unfold pic_record_latency. destruct (64 <=? vector); [reflexivity |].
  cbn [pic with_pic samples_count]. apply length_insert.
Qed.

Lemma ack_irq_accepted vector s :
  0 <= vector < 2 ^ 31 -> iosub_ack_irq vector s = (1, pic_ack vector s).
Proof.
  intros Hv. unfold iosub_ack_irq.
  destruct (Z.ltb_spec vector 0); [lia |].
  rewrite u32_small by lia. reflexivity.
Qed.

(** C2. What [ack_irq] does outside the vector range: a negative vector is
    refused (0) and a vector from 32 up is reported as accepted (1); in both
    cases no part of the state changes. *)
Theorem ack_irq_out_of_range (s : iosub) (vector : Z) :
  (vector < 0 -> iosub_ack_irq vector s = (0, s)) /\
  (32 <= vector < 2 ^ 31 -> iosub_ack_irq vector s = (1, s)).
Proof.
  split; intros Hv.
  - unfold iosub_ack_irq. now destruct (Z.ltb_spec vector 0); [| lia].
  - rewrite ack_irq_accepted by lia. now rewrite pic_ack_dropped by lia.
Qed.

(** C3 (amended). Acknowledging an in-range vector whose recorded firing
    cycle is the sentinel 0 changes none of the statistics; when a firing
    cycle is recorded, the acknowledgment does not consume it, so each of
    two acknowledgments in a row folds one latency sample and the sample
    count goes up twice. *)
Theorem ack_irq_statistics (s : iosub) (vector : Z) :
  0 <= vector < 32 ->
  let i := Z.to_nat vector in
  let s1 := snd (iosub_ack_irq vector s) in
  let s2 := snd (iosub_ack_irq vector s1) in
  (last_event_cycle (pic s) !!! i = 0 ->
   samples_count (pic s1) = samples_count (pic s) /\
   samples_mean (pic s1) = samples_mean (pic s) /\
   samples_m2 (pic s1) = samples_m2 (pic s) /\
   last_event_cycle (pic s1) = last_event_cycle (pic s)) /\
  (last_event_cycle (pic s) !!! i <> 0 ->
   length (samples_count (pic s)) = 64%nat ->
   samples_count (pic s1) !!! i = u64 (samples_count (pic s) !!! i + 1) /\
   samples_count (pic s2) !!! i =
     u64 (u64 (samples_count (pic s) !!! i + 1) + 1)).
Proof.
  intros Hv i s1 s2. subst s1 s2 i.
  rewrite !ack_irq_accepted by lia. cbn [snd].
  split.
  - intros He. rewrite pic_ack_no_event by (lia || assumption).
    repeat split.
  - intros He Hlen.
    assert (H1 : samples_count (pic (pic_ack vector s)) !!! Z.to_nat vector =
                 u64 (samples_count (pic s) !!! Z.to_nat vector + 1)).
    { rewrite pic_ack_event by (lia || assumption).
      cbn [pic with_pic with_pending samples_count].
      apply pic_record_latency_count; lia. }
    split; [exact H1 |].
    rewrite <- H1.
    rewrite (pic_ack_event vector (pic_ack vector s))
      by (rewrite ?pic_ack_keeps_event_cycles; lia || assumption).
    cbn [pic with_pic with_pending samples_count].
    apply pic_record_latency_count; [lia |].
    rewrite (pic_ack_event vector s) by (lia || assumption).
    cbn [pic with_pic with_pending samples_count].
    rewrite pic_record_latency_length. lia.
Qed.

(** C4 (amended). The bounds guard of the PIC signal operation sits at 64,
    the size of the per-vector arrays: a vector from 64 up is dropped with
    the whole state unchanged, while a vector in 32..63 raises pending bit
    [vector - 32] and records the current cycle in its own slot. *)
Theorem pic_signal_irq_guard (s : iosub) (vector : Z) :
  (64 <= vector -> pic_signal_irq vector s = s) /\
  (32 <= vector < 64 ->
   pending_bits (pic (pic_signal_irq vector s)) =
     Z.lor (pending_bits (pic s)) (Z.shiftl 1 (vector - 32)) /\
   last_event_cycle (pic (pic_signal_irq vector s)) =
     <[Z.to_nat vector := global_cycles s]> (last_event_cycle (pic s))).
Proof.
  split; intros Hv; unfold pic_signal_irq.
  - now destruct (Z.leb_spec 64 vector); [| lia].
  - destruct (Z.leb_spec 64 vector); [lia |].
    cbn [pic with_pic pending_bits last_event_cycle]. split; [| reflexivity].
    replace (vector mod 32) with (vector - 32)
      by (Z.div_mod_to_equations; lia).
    rewrite u32_small; [reflexivity |].
    rewrite Z.shiftl_1_l. split; [apply Z.pow_nonneg; lia |].
    apply Z.pow_lt_mono_r; lia.
Qed.

(** C7. In every state reached from reset, the statistics query on a
    vector in 0..31 returns its sample count, its running mean and, as the
    variance, [running_sum_sq_dev / (count - 1)] when the count is above 1
    and 0 otherwise; on every vector from 32 up it returns (0, 0, 0). *)
Theorem irq_stats_query (h : list call) (vector : Z) :
  0 <= vector ->
  let s := after h in
  let i := Z.to_nat vector in
  let stats := iosub_get_irq_stats vector s in
  (vector < 32 ->
   fst (fst stats) = samples_count (pic s) !!! i /\
   snd (fst stats) = samples_mean (pic s) !!! i /\
   (1 < samples_count (pic s) !!! i ->
    snd stats = ld_div (samples_m2 (pic s) !!! i)
                       (ld_of_u64 (samples_count (pic s) !!! i - 1))) /\
   (samples_count (pic s) !!! i <= 1 -> snd stats = ld_zero)) /\
  (32 <= vector -> stats = (0, ld_zero, ld_zero)).
Proof.
  intros Hv s i stats. subst stats. unfold iosub_get_irq_stats.
  pose proof (inv_after h) as [_ _ _ _ _ Hcnt Hhigh]. fold s in Hcnt, Hhigh.
  split; intros Hr.
  - destruct (Z.leb_spec 64 vector); [lia |]. fold i. cbn [fst snd].
    specialize (Hcnt i ltac:(lia)).
    repeat split.
    + intros Hc. destruct (Z.ltb_spec 1 (samples_count (pic s) !!! i)); [| lia].
      unfold u64. now rewrite Z.mod_small by lia.
    + intros Hc. now destruct (Z.ltb_spec 1 (samples_count (pic s) !!! i)); [lia |].
  - destruct (Z.leb_spec 64 vector); [reflexivity |]. fold i.
    destruct (Hhigh i ltac:(lia)) as (-> & -> & ->). reflexivity.
Qed.

End Properties.

(** * The theorems at concrete inputs *)

Lemma harness_setup_history : after setup_calls = harness_setup.
Proof. reflexivity. Qed.

Lemma ack_irq_out_of_range_witness :
  32 <= 32 < 2 ^ 31 /\ iosub_ack_irq 32 fired_once = (1, fired_once).
Proof.
  assert (Hv : 32 <= 32 < 2 ^ 31) by lia.
  exact (conj Hv (proj2 (ack_irq_out_of_range fired_once 32) Hv)).
Defined.

Lemma ack_irq_statistics_witness :
  0 <= 0 < 32 /\
  last_event_cycle (pic fired_once) !!! 0%nat <> 0 /\
  length (samples_count (pic fired_once)) = 64%nat /\
  samples_count (pic acked_once) !!! 0%nat =
    u64 (samples_count (pic fired_once) !!! 0%nat + 1) /\
  samples_count (pic acked_twice) !!! 0%nat =
    u64 (u64 (samples_count (pic fired_once) !!! 0%nat + 1) + 1).
Proof.
  assert (Hv : 0 <= 0 < 32) by lia.
  assert (He : last_event_cycle (pic fired_once) !!! 0%nat <> 0)
    by (vm_compute; discriminate).
  assert (Hl : length (samples_count (pic fired_once)) = 64%nat)
    by reflexivity.
  exact (conj Hv (conj He (conj Hl
           (proj2 (ack_irq_statistics fired_once 0 Hv) He Hl)))).
Defined.

(** C3, as stated, fails: after one firing of vector 0, the second of two
    acknowledgments in a row adds a second sample. *)
Lemma double_ack_adds_second_sample :
  iosub_get_irq_stats 0 fired_once = (0, 0%Q, 0%Q) /\
  iosub_get_irq_stats 0 acked_once = (1, 0%Q, 0%Q) /\
  iosub_get_irq_stats 0 acked_twice = (2, 0%Q, 0%Q) /\
  iosub_get_irq_stats 0 acked_twice <> iosub_get_irq_stats 0 acked_once.
Proof. repeat split; vm_compute; try reflexivity; discriminate. Qed.

Lemma pic_signal_irq_guard_witness :
  64 <= 64 /\ pic_signal_irq 64 idle_cycle_1 = idle_cycle_1.
Proof.
  assert (Hv : 64 <= 64) by lia.
  exact (conj Hv (proj1 (pic_signal_irq_guard idle_cycle_1 64) Hv)).
Defined.

(** C4, as stated, fails: vector 32 is not dropped, it raises pending bit 0
    and records the current cycle in slot 32. *)
Lemma signal_32_not_dropped :
  32 >= 32 /\
  pending_bits (pic idle_cycle_1) = 0 /\
  pending_bits (pic (pic_signal_irq 32 idle_cycle_1)) = 1 /\
  last_event_cycle (pic idle_cycle_1) !!! 32%nat = 0 /\
  last_event_cycle (pic (pic_signal_irq 32 idle_cycle_1)) !!! 32%nat = 1 /\
  pic (pic_signal_irq 32 idle_cycle_1) <> pic idle_cycle_1.
Proof.
  repeat split; try reflexivity; try lia.
  intros H. apply (f_equal pending_bits) in H. vm_compute in H. discriminate.
Qed.

Lemma write_pending_subword_witness :
  0 <= pending_bits (pic five_pending) < 2 ^ 32 /\
  0 <= 1 <= 3 /\
  0 <= 0x01 < 2 ^ 8 /\
  pending_bits
    (pic (iosub_write8 (PIC_BASE + PIC_OFF_PENDING + 1) 0x01 five_pending)) =
  Z.land (Z.land (pending_bits (pic five_pending)) (Z.shiftl 0xFF (8 * 1)))
         (not32 (Z.shiftl 0x01 (8 * 1))).
Proof.
  assert (Hp : 0 <= pending_bits (pic five_pending) < 2 ^ 32) by (cbn; lia).
  assert (Hk : 0 <= 1 <= 3) by lia.
  assert (Hv : 0 <= 0x01 < 2 ^ 8) by lia.
  exact (conj Hp (conj Hk (conj Hv
           (proj1 (write_pending_subword five_pending 1 0x01 Hp Hk) Hv)))).
Defined.

Lemma irq_pending_lowest_unmasked_witness :
  Z.testbit (pending_bits (pic five_pending)) 0 = true /\
  Z.testbit (pending_bits (pic five_pending)) 5 = true /\
  Z.testbit (mask_bits (pic five_pending)) 0 = false /\
  Z.testbit (mask_bits (pic five_pending)) 5 = false /\
  iosub_irq_pending five_pending = 0.
Proof.
  assert (P0 : Z.testbit (pending_bits (pic five_pending)) 0 = true)
    by reflexivity.
  assert (P5 : Z.testbit (pending_bits (pic five_pending)) 5 = true)
    by reflexivity.
  assert (M0 : Z.testbit (mask_bits (pic five_pending)) 0 = false)
    by reflexivity.
  assert (M5 : Z.testbit (mask_bits (pic five_pending)) 5 = false)
    by reflexivity.
  exact (conj P0 (conj P5 (conj M0 (conj M5
           (proj2 (proj2 (irq_pending_lowest_unmasked five_pending))
                  P0 P5 M0 M5))))).
Defined.

Lemma irq_stats_query_witness :
  0 <= 0 /\
  1 < samples_count (pic (after two_samples)) !!! 0%nat /\
  snd (iosub_get_irq_stats 0 (after two_samples)) =
    ld_div (samples_m2 (pic (after two_samples)) !!! 0%nat)
           (ld_of_u64 (samples_count (pic (after two_samples)) !!! 0%nat - 1)) /\
  iosub_get_irq_stats 32 (after two_samples) = (0, ld_zero, ld_zero).
Proof.
  assert (H0 : 0 <= 0) by lia.
  assert (H32 : 0 <= 32) by lia.
  assert (Hc : 1 < samples_count (pic (after two_samples)) !!! 0%nat)
    by (vm_compute; reflexivity).
  assert (Hlt : 0 < 32) by lia.
  assert (Hge : 32 <= 32) by lia.
  exact (conj H0 (conj Hc (conj
           (proj1 (proj2 (proj2
              (proj1 (irq_stats_query two_samples 0 H0) Hlt))) Hc)
           (proj2 (irq_stats_query two_samples 32 H32) Hge)))).
Defined.

Lemma write32_read32_roundtrip_witness :
  0 <= 0xDEADBEEF < 2 ^ 32 /\
  iosub_read32 (TIMER_BASE + TIMER_OFF_CTRL)
    (iosub_write32 (TIMER_BASE + TIMER_OFF_CTRL) 0xDEADBEEF fired_once) =
  Z.land 0xDEADBEEF 3 /\
  iosub_read32 (TIMER_BASE + TIMER_OFF_STATUS)
    (iosub_write32 (TIMER_BASE + TIMER_OFF_STATUS) 0xDEADBEEF fired_once) =
  Z.land 0xDEADBEEF 0xFF.
Proof.
  assert (Hv : 0 <= 0xDEADBEEF < 2 ^ 32) by lia.
  pose proof (write32_read32_roundtrip fired_once 0xDEADBEEF Hv) as Hrt.
  exact (conj Hv (conj (proj1 Hrt)
           (proj1 (proj2 (proj2 (proj2 Hrt)))))).
Defined.

Lemma first_tick_fires_witness :
  enabled (timer harness_setup) <> 0 /\
  0 < period (timer harness_setup) /\
  count (timer harness_setup) = 0 /\
  events_generated (timer (iosub_tick harness_setup)) =
    u64 (events_generated (timer harness_setup) + 1) /\
  Z.testbit (status (timer (iosub_tick harness_setup))) 0 = true /\
  count (timer (iosub_tick harness_setup)) = period (timer harness_setup).
Proof.
  assert (He : enabled (timer (@harness_setup exact_ld)) <> 0)
    by (vm_compute; discriminate).
  assert (Hp : 0 < period (timer (@harness_setup exact_ld)))
    by (vm_compute; reflexivity).
  assert (Hc : count (timer (@harness_setup exact_ld)) = 0) by reflexivity.
  pose proof (first_tick_fires harness_setup He Hp Hc) as Hfire.
  exact (conj He (conj Hp (conj Hc (conj (proj1 Hfire)
           (conj (proj1 (proj2 Hfire)) (proj1 (proj2 (proj2 Hfire)))))))).
Defined.

(** * Further properties of the subsystem *)

(** ** Aligned addresses *)

Lemma land_not3 a : 0 <= a < 2 ^ 32 -> Z.land a (not32 3) = 4 * (a / 4).
Proof.
  intros Ha. apply Z.bits_inj'. intros n Hn.
  replace (4 * (a / 4)) with (Z.shiftl (Z.shiftr a 2) 2)
    by (rewrite Z.shiftl_mul_pow2, Z.shiftr_div_pow2 by lia;
        change (2 ^ 2) with 4; lia).
  rewrite Z.land_spec, testbit_not32 by assumption.
  change 3 with (Z.ones 2). rewrite Z.testbit_ones_nonneg by lia.
  destruct (Z.ltb_spec n 2) as [Hlt | Hge].
  - rewrite Z.shiftl_spec_low by lia. cbn [negb].
    now rewrite !andb_false_r.
  - rewrite Z.shiftl_spec, Z.shiftr_spec by lia.
    replace (n - 2 + 2) with n by lia. cbn [negb].
    destruct (Z.ltb_spec n 32) as [H32 | H32].
    + now rewrite !andb_true_r.
    + rewrite (testbit_high a n) by lia. reflexivity.
Qed.

Lemma land_2 x : Z.land x 2 = 2 * ((x / 2) mod 2).
Proof.
  replace (2 * ((x / 2) mod 2)) with (Z.shiftl (Z.land (Z.shiftr x 1) 1) 1)
    by (rewrite Z.shiftl_mul_pow2, land_1, Z.shiftr_div_pow2 by lia;
        change (2 ^ 1) with 2; lia).
  apply Z.bits_inj'. intros n Hn.
  rewrite Z.land_spec. change 2 with (2 ^ 1).
  rewrite Z.pow2_bits_eqb by lia.
  destruct (Z.eqb_spec 1 n) as [<- | Hne].
  - rewrite Z.shiftl_spec, Z.land_spec, Z.shiftr_spec by lia. reflexivity.
  - rewrite andb_false_r. symmetry.
    destruct (Z.ltb_spec n 1) as [Hlt | Hge].
    + apply Z.shiftl_spec_low. lia.
    + rewrite Z.shiftl_spec, Z.land_spec by lia.
      change 1 with (2 ^ 0) at 3. rewrite Z.pow2_bits_eqb by lia.
      destruct (Z.eqb_spec 0 (n - 1)); [lia | apply andb_false_r].
Qed.

(** The decoding of sub-word accesses: for a word-aligned [b] and a byte
    offset [k], the containing word is [b], the byte shift is [8k] and the
    half-word shift is [16 (k / 2)]. *)
Lemma aligned_base b k :
  0 <= b -> b + 3 < 2 ^ 32 -> b mod 4 = 0 -> 0 <= k <= 3 ->
  Z.land (b + k) (not32 3) = b /\ Z.land (b + k) 3 * 8 = 8 * k /\
  Z.land (b + k) 2 * 8 = 16 * (k / 2).
Proof.
  intros Hb Hb3 Hal Hk.
  rewrite land_not3, land_3, land_2 by lia.
  repeat split; Z.div_mod_to_equations; lia.
Qed.

Section Further.
Context `{LD : LongDouble}.

(** ** Address decoding *)

Lemma in_timer_window addr :
  in_range addr TIMER_BASE TIMER_SIZE = true <->
  TIMER_BASE <= addr < TIMER_BASE + TIMER_SIZE.
Proof.
  unfold in_range.
  change (u32 (TIMER_BASE + TIMER_SIZE)) with (TIMER_BASE + TIMER_SIZE).
  rewrite andb_true_iff, Z.leb_le, Z.ltb_lt. reflexivity.
Qed.

Lemma in_pic_window addr :
  in_range addr PIC_BASE PIC_SIZE = true <->
  PIC_BASE <= addr < PIC_BASE + PIC_SIZE.
Proof.
  unfold in_range.
  change (u32 (PIC_BASE + PIC_SIZE)) with (PIC_BASE + PIC_SIZE).
  rewrite andb_true_iff, Z.leb_le, Z.ltb_lt. reflexivity.
Qed.

Lemma mmio_unmapped addr s :
  in_range addr TIMER_BASE TIMER_SIZE = false ->
  in_range addr PIC_BASE PIC_SIZE = false ->
  mmio_read32 addr s = 0 /\ forall val, mmio_write32 addr val s = s.
Proof.
  intros Ht Hp. unfold mmio_read32, mmio_write32. rewrite Ht, Hp. auto.
Qed.

Ltac window_offsets :=
  repeat match goal with
  | H : in_range _ TIMER_BASE TIMER_SIZE = true |- _ =>
      apply in_timer_window in H
  | H : in_range _ PIC_BASE PIC_SIZE = true |- _ =>
      apply in_pic_window in H
  end;
  unfold TIMER_BASE, TIMER_SIZE, PIC_BASE, PIC_SIZE, TIMER_OFF_CTRL,
    TIMER_OFF_PERIOD, TIMER_OFF_COUNT, TIMER_OFF_STATUS, PIC_OFF_MASK,
    PIC_OFF_PENDING, PIC_OFF_EOI in *.

(** X1. A word access at any address that is not one of the registers is
    inert: the read returns 0 and the write changes nothing.  This covers
    addresses outside both windows, the reserved PRIORITY offset, all other
    offsets inside the windows, and EOI for reads. *)
Theorem unregistered_word_access (s : iosub) (addr val : Z) :
  (addr ∉ read_registers -> iosub_read32 addr s = 0) /\
  (addr ∉ write_registers -> iosub_write32 addr val s = s).
Proof.
  split; intros Hreg.
  - unfold read_registers in Hreg. rewrite !not_elem_of_cons in Hreg.
    destruct Hreg as (H1 & H2 & H3 & H4 & H5 & H6 & _).
    unfold iosub_read32, mmio_read32.
    destruct (in_range addr TIMER_BASE TIMER_SIZE) eqn:Ht.
    { rewrite (u32_small (addr - TIMER_BASE)) by (window_offsets; lia).
      repeat match goal with
             | |- context [?a =? ?b] => destruct (Z.eqb_spec a b)
             end; try reflexivity; window_offsets; lia. }
    destruct (in_range addr PIC_BASE PIC_SIZE) eqn:Hp; [| reflexivity].
    rewrite (u32_small (addr - PIC_BASE)) by (window_offsets; lia).
    repeat match goal with
           | |- context [?a =? ?b] => destruct (Z.eqb_spec a b)
           end; try reflexivity; window_offsets; lia.
  - unfold write_registers, read_registers in Hreg. cbn [app] in Hreg.
    rewrite !not_elem_of_cons in Hreg.
    destruct Hreg as (H1 & H2 & H3 & H4 & H5 & H6 & H7 & _).
    unfold iosub_write32, mmio_write32.
    destruct (in_range addr TIMER_BASE TIMER_SIZE) eqn:Ht.
    { rewrite (u32_small (addr - TIMER_BASE)) by (window_offsets; lia).
      repeat match goal with
             | |- context [?a =? ?b] => destruct (Z.eqb_spec a b)
             end; try reflexivity; window_offsets; lia. }
    destruct (in_range addr PIC_BASE PIC_SIZE) eqn:Hp; [| reflexivity].
    rewrite (u32_small (addr - PIC_BASE)) by (window_offsets; lia).
    repeat match goal with
           | |- context [?a =? ?b] => destruct (Z.eqb_spec a b)
           end; try reflexivity; window_offsets; lia.
Qed.

Lemma aligned_unmapped addr :
  0 <= addr < 2 ^ 32 ->
  in_range addr TIMER_BASE TIMER_SIZE = false ->
  in_range addr PIC_BASE PIC_SIZE = false ->
  in_range (Z.land addr (not32 3)) TIMER_BASE TIMER_SIZE = false /\
  in_range (Z.land addr (not32 3)) PIC_BASE PIC_SIZE = false.
Proof.
  intros Ha Ht Hp. rewrite land_not3 by assumption.
  apply not_true_iff_false in Ht, Hp.
  rewrite in_timer_window in Ht. rewrite in_pic_window in Hp.
  split; apply not_true_iff_false; intros Hin;
    [apply in_timer_window in Hin | apply in_pic_window in Hin];
    window_offsets; Z.div_mod_to_equations; lia.
Qed.

(** X2. Byte and half-word accesses outside both device windows are inert
    as well: the reads return 0 and the read-modify-write of the containing
    word changes nothing. *)
Theorem unmapped_subword_access (s : iosub) (addr val : Z) :
  0 <= addr < 2 ^ 32 ->
  in_range addr TIMER_BASE TIMER_SIZE = false ->
  in_range addr PIC_BASE PIC_SIZE = false ->
  iosub_read8 addr s = 0 /\ iosub_read16 addr s = 0 /\
  iosub_write8 addr val s = s /\ iosub_write16 addr val s = s.
Proof.
  intros Ha Ht Hp.
  destruct (aligned_unmapped addr Ha Ht Hp) as (Ht' & Hp').
  destruct (mmio_unmapped (Z.land addr (not32 3)) s Ht' Hp') as (Hr & Hw).
  unfold iosub_read8, iosub_read16, iosub_write8, iosub_write16.
  rewrite Hr, !Hw, !Z.shiftr_0_l. repeat split.
Qed.

(** ** Sub-word reads *)

Lemma read8_aligned s b k :
  0 <= b -> b + 3 < 2 ^ 32 -> b mod 4 = 0 -> 0 <= k <= 3 ->
  iosub_read8 (b + k) s = (mmio_read32 b s / 2 ^ (8 * k)) mod 2 ^ 8.
Proof.
  intros Hb Hb3 Hal Hk.
  destruct (aligned_base b k Hb Hb3 Hal Hk) as (E1 & E2 & _).
  unfold iosub_read8. rewrite E1, E2. change 0xFF with (Z.ones 8).
  rewrite Z.land_ones, Z.shiftr_div_pow2 by lia.
  unfold u8. apply Z.mod_mod. lia.
Qed.

Lemma read16_aligned s b k :
  0 <= b -> b + 3 < 2 ^ 32 -> b mod 4 = 0 -> 0 <= k <= 3 ->
  iosub_read16 (b + k) s =
  (mmio_read32 b s / 2 ^ (16 * (k / 2))) mod 2 ^ 16.
Proof.
  intros Hb Hb3 Hal Hk.
  destruct (aligned_base b k Hb Hb3 Hal Hk) as (E1 & _ & E3).
  unfold iosub_read16. rewrite E1, E3. change 0xFFFF with (Z.ones 16).
  assert (0 <= k / 2) by (Z.div_mod_to_equations; lia).
  rewrite Z.land_ones, Z.shiftr_div_pow2 by lia.
  unfold u16. apply Z.mod_mod. lia.
Qed.

(** X3. Sub-word reads are little-endian slices of the containing word:
    at a word-aligned address whose word is a 32-bit value, the four bytes
    and the two half-words reassemble the word, and a half-word read at an
    odd byte offset returns the half-word that contains that byte. *)
Theorem subword_reads_slice_word (s : iosub) (b : Z) :
  0 <= b -> b + 3 < 2 ^ 32 -> b mod 4 = 0 ->
  0 <= iosub_read32 b s < 2 ^ 32 ->
  iosub_read32 b s =
    iosub_read8 b s + 2 ^ 8 * iosub_read8 (b + 1) s +
    2 ^ 16 * iosub_read8 (b + 2) s + 2 ^ 24 * iosub_read8 (b + 3) s /\
  iosub_read32 b s = iosub_read16 b s + 2 ^ 16 * iosub_read16 (b + 2) s /\
  iosub_read16 (b + 1) s = iosub_read16 b s /\
  iosub_read16 (b + 3) s = iosub_read16 (b + 2) s.
Proof.
  intros Hb Hb3 Hal Hw. unfold iosub_read32 in *.
  replace (iosub_read8 b s) with (iosub_read8 (b + 0) s)
    by (now rewrite Z.add_0_r).
  replace (iosub_read16 b s) with (iosub_read16 (b + 0) s)
    by (now rewrite Z.add_0_r).
  rewrite !read8_aligned, !read16_aligned by lia.
  change (16 * (0 / 2)) with 0. change (16 * (1 / 2)) with 0.
  change (16 * (2 / 2)) with 16. change (16 * (3 / 2)) with 16.
  change (8 * 0) with 0. change (8 * 1) with 8. change (8 * 2) with 16.
  change (8 * 3) with 24.
  set (w := mmio_read32 b s) in *. clearbody w.
  change (2 ^ 0) with 1. change (2 ^ 8) with 256. change (2 ^ 16) with 65536.
  change (2 ^ 24) with 16777216. change (2 ^ 32) with 4294967296 in Hw.
  repeat split; Z.div_mod_to_equations; lia.
Qed.

(** ** The timer and the clock *)

(** While the timer is disabled or its period is 0, a tick advances the
    clock by one and changes nothing else. *)
Lemma idle_tick_only_advances_clock (s : iosub) :
  enabled (timer s) = 0 \/ period (timer s) = 0 ->
  iosub_tick s = mkIosub (u64 (global_cycles s + 1)) (timer s) (pic s).
Proof.
  intros Hidle. unfold iosub_tick, timer_tick. cbn [timer].
  destruct (Z.eqb_spec (enabled (timer s)) 0); [reflexivity |].
  destruct (Z.eqb_spec (period (timer s)) 0); [reflexivity |].
  destruct Hidle; contradiction.
Qed.

(** X5. The clock counts the ticks since reset, modulo 2^64: after any
    history of calls [iosub_get_global_cycles] returns the number of ticks
    in it, and a call other than a tick never changes the clock. *)
Theorem clock_counts_ticks (h : list call) :
  iosub_get_global_cycles (after h) = ticks h mod 2 ^ 64 /\
  forall c, c <> Tick ->
    iosub_get_global_cycles (exec c (after h)) =
    iosub_get_global_cycles (after h).
Proof.
  unfold iosub_get_global_cycles. split.
  - apply after_cycles.
  - intros c Hc. rewrite exec_cycles. destruct c; congruence.
Qed.

Lemma u64_small x : 0 <= x < 2 ^ 64 -> u64 x = x.
Proof. intros H. unfold u64. now apply Z.mod_small. Qed.

Lemma u64_succ x : u64 (u64 x + 1) = u64 (x + 1).
Proof. unfold u64. apply Zplus_mod_idemp_l. Qed.

(** The whole state while the counter only counts down. *)
Lemma run_ticks_count_down_state n : forall s,
  enabled (timer s) <> 0 -> period (timer s) <> 0 ->
  Z.of_nat n <= count (timer s) < 2 ^ 32 ->
  run_ticks n s =
    mkIosub (u64 (global_cycles s + Z.of_nat n))
      (mkTimer (enabled (timer s)) (irq_enable (timer s)) (period (timer s))
               (count (timer s) - Z.of_nat n) (status (timer s))
               (events_generated (timer s)))
      (pic s) \/ (n = 0%nat /\ run_ticks n s = s).
Proof.
  induction n as [| n IH]; intros s He Hp Hc; [right; auto |].
  left. cbn [run_ticks].
  destruct (IH s He Hp ltac:(lia)) as [E | [-> E]]; rewrite E.
  - rewrite iosub_tick_count_down;
      cbn [timer pic global_cycles enabled period count irq_enable status
           events_generated]; try assumption; try lia.
    rewrite u64_succ, u32_small by lia.
    replace (global_cycles s + Z.of_nat n + 1)
      with (global_cycles s + Z.of_nat (S n)) by lia.
    replace (count (timer s) - Z.of_nat n - 1)
      with (count (timer s) - Z.of_nat (S n)) by lia.
    reflexivity.
  - rewrite iosub_tick_count_down by (try assumption; lia).
    rewrite u32_small by lia.
    replace (count (timer s) - 1)
      with (count (timer s) - Z.of_nat 1) by lia.
    reflexivity.
Qed.

(** X7. With the timer enabled and a non-zero period, a counter value [c]
    means that the next [c] ticks change neither the event counter nor the
    PIC, and that the timer fires on the tick after them, reloading the
    counter with the period. *)
Theorem ticks_until_fire (s : iosub) (c : nat) :
  enabled (timer s) <> 0 -> period (timer s) <> 0 ->
  count (timer s) = Z.of_nat c -> Z.of_nat c < 2 ^ 32 ->
  (forall n : nat, (n <= c)%nat ->
     events_generated (timer (run_ticks n s)) = events_generated (timer s) /\
     pic (run_ticks n s) = pic s) /\
  events_generated (timer (run_ticks (S c) s)) =
    u64 (events_generated (timer s) + 1) /\
  count (timer (run_ticks (S c) s)) = period (timer s).
Proof.
  intros He Hp Hc Hr.
  assert (Hdown : forall n : nat, (n <= c)%nat ->
            timer (run_ticks n s) =
              mkTimer (enabled (timer s)) (irq_enable (timer s))
                      (period (timer s)) (count (timer s) - Z.of_nat n)
                      (status (timer s)) (events_generated (timer s)) /\
            pic (run_ticks n s) = pic s).
  { intros n Hn.
    destruct (run_ticks_count_down_state n s He Hp ltac:(lia)) as [E | [-> E]];
      rewrite E; [split; reflexivity |].
    split; [| reflexivity]. rewrite Z.sub_0_r. now destruct (timer s). }
  split.
  - intros n Hn. destruct (Hdown n Hn) as (Ht & Hpic). now rewrite Ht.
  - cbn [run_ticks]. destruct (Hdown c ltac:(lia)) as (Ht & _).
    destruct (iosub_tick_fire (run_ticks c s)) as (Hfire & _);
      rewrite ?Ht; cbn [enabled period count]; try assumption; try lia.
    rewrite Hfire, Ht. split; reflexivity.
Qed.

(** X11. The latency folded by an acknowledgment is the number of ticks
    since the firing: after a firing tick and [d] further ticks (no more
    than the period, so that the timer has not fired again), acknowledging
    vector 0 folds exactly one sample of latency [d]. *)
Theorem ack_latency_counts_ticks (s : iosub) (d : nat) :
  enabled (timer s) <> 0 -> 0 < period (timer s) < 2 ^ 32 ->
  count (timer s) = 0 -> irq_enable (timer s) <> 0 ->
  length (last_event_cycle (pic s)) = 64%nat ->
  Z.of_nat d <= period (timer s) ->
  0 <= global_cycles s -> global_cycles s + 1 + Z.of_nat d < 2 ^ 64 ->
  let s1 := run_ticks d (iosub_tick s) in
  iosub_ack_irq 0 s1 =
    (1, let s2 := pic_record_latency 0 (Z.of_nat d) s1 in
        with_pic
          (with_pending (Z.land (pending_bits (pic s2)) (not32 1)) (pic s2))
          s2).
Proof.
  intros He Hp Hc Hi Hlen Hd Hg0 Hg s1.
  destruct (iosub_tick_fire s) as (Ht & Hgc & Hpic); try assumption; try lia.
  destruct (Z.eqb_spec (irq_enable (timer s)) 0); [contradiction |].
  rewrite pic_signal_irq_0 in Hpic.
  cbn [pic with_pic global_cycles last_event_cycle] in Hpic.
  assert (Hgc1 : global_cycles (iosub_tick s) = global_cycles s + 1).
  { rewrite Hgc. unfold u64. apply Z.mod_small. lia. }
  assert (Hs1 : pic s1 = pic (iosub_tick s) /\
                global_cycles s1 = global_cycles s + 1 + Z.of_nat d).
  { subst s1.
    destruct (run_ticks_count_down_state d (iosub_tick s)) as [E | [-> E]];
      rewrite ?Ht; cbn [enabled period count]; try assumption; try lia;
      rewrite E; cbn [pic global_cycles].
    - rewrite Hgc1. split; [reflexivity |]. unfold u64. apply Z.mod_small. lia.
    - rewrite Hgc1. split; [reflexivity | cbn; lia]. }
  destruct Hs1 as (Hpic1 & Hgcd).
  assert (Hev : last_event_cycle (pic s1) !!! 0%nat = global_cycles s + 1).
  { rewrite Hpic1, Hpic. cbn [last_event_cycle].
    rewrite list_lookup_total_insert_eq by lia.
    unfold u64. apply Z.mod_small. lia. }
  rewrite ack_irq_accepted by lia.
  rewrite pic_ack_event by (change (Z.to_nat 0) with 0%nat; lia).
  change (Z.to_nat 0) with 0%nat. rewrite Hev, Hgcd.
  replace (global_cycles s + 1 + Z.of_nat d - (global_cycles s + 1))
    with (Z.of_nat d) by lia.
  change (u32 (Z.shiftl 1 0)) with 1.
  rewrite (u64_small (Z.of_nat d)) by lia. reflexivity.
Qed.

(** ** The interrupt controller *)

Lemma pending_vector_lowest s :
  let p := Z.land (pending_bits (pic s)) (not32 (mask_bits (pic s))) in
  (p = 0 /\ iosub_irq_pending s = -1) \/
  (0 <= iosub_irq_pending s < 32 /\
   Z.testbit p (iosub_irq_pending s) = true /\
   forall j, 0 <= j < iosub_irq_pending s -> Z.testbit p j = false).
Proof.
  intros p. unfold iosub_irq_pending, pic_get_pending_vector. fold p.
  destruct (Z.eqb_spec p 0) as [E | Hne]; [left; auto | right].
  apply builtin_ctz_spec; [| assumption].
  apply land_u32_range, not32_range.
Qed.

Lemma unmasked_bit s n :
  0 <= n < 32 ->
  Z.testbit (Z.land (pending_bits (pic s)) (not32 (mask_bits (pic s)))) n =
  Z.testbit (pending_bits (pic s)) n && negb (Z.testbit (mask_bits (pic s)) n).
Proof.
  intros Hn. rewrite Z.land_spec, testbit_not32 by lia.
  now destruct (Z.ltb_spec n 32); [| lia].
Qed.

(** X12. Masking hides a vector without dropping its request: a write to
    MASK leaves the pending bitmap as it is, [irq_pending] never returns a
    vector whose mask bit is set, and it returns [v] as soon as [v] is
    pending, unmasked and every lower pending vector is masked. *)
Theorem mask_hides_but_keeps_pending (s : iosub) (m v : Z) :
  0 <= v < 32 ->
  let s' := iosub_write32 (PIC_BASE + PIC_OFF_MASK) m s in
  pending_bits (pic s') = pending_bits (pic s) /\
  (Z.testbit m v = true -> iosub_irq_pending s' <> v) /\
  (Z.testbit (pending_bits (pic s)) v = true -> Z.testbit m v = false ->
   (forall j, 0 <= j < v -> Z.testbit (pending_bits (pic s)) j = true ->
              Z.testbit m j = true) ->
   iosub_irq_pending s' = v).
Proof.
  intros Hv s'.
  assert (Hpend : pending_bits (pic s') = pending_bits (pic s)) by reflexivity.
  assert (Hmask : mask_bits (pic s') = m) by reflexivity.
  split; [exact Hpend |].
  pose proof (pending_vector_lowest s') as Hlow.
  cbv zeta in Hlow. split.
  - intros Hm Hr. destruct Hlow as [(_ & Hnone) | (_ & Hset & _)]; [lia |].
    rewrite Hr, unmasked_bit, Hmask, Hm in Hset by lia.
    rewrite andb_false_r in Hset. discriminate.
  - intros Hp Hm Hothers.
    assert (Hbit : Z.testbit (Z.land (pending_bits (pic s'))
                                (not32 (mask_bits (pic s')))) v = true).
    { rewrite unmasked_bit, Hpend, Hmask, Hp, Hm by lia. reflexivity. }
    destruct Hlow as [(H0 & _) | (Hr & Hset & Hbelow)].
    { rewrite H0 in Hbit. now rewrite Z.bits_0 in Hbit. }
    destruct (Z.lt_trichotomy (iosub_irq_pending s') v) as [Hlt | [E | Hgt]];
      [| exact E |].
    + rewrite unmasked_bit, Hpend, Hmask in Hset by lia.
      apply andb_true_iff in Hset. destruct Hset as (Hpj & Hmj).
      rewrite (Hothers (iosub_irq_pending s') ltac:(lia) Hpj) in Hmj.
      discriminate.
    + rewrite Hbelow in Hbit by lia. discriminate.
Qed.

Lemma pic_ack_frame vector s :
  vector < 32 ->
  pending_bits (pic (pic_ack vector s)) =
    Z.land (pending_bits (pic s)) (not32 (u32 (Z.shiftl 1 vector))) /\
  mask_bits (pic (pic_ack vector s)) = mask_bits (pic s) /\
  timer (pic_ack vector s) = timer s /\
  global_cycles (pic_ack vector s) = global_cycles s.
Proof.
  intros Hv. unfold pic_ack, pic_record_latency.
  destruct (Z.leb_spec 32 vector); [lia |].
  destruct (_ =? 0); [repeat split |].
  destruct (Z.leb_spec 64 vector); [lia | repeat split].
Qed.

(** X13. An acknowledgment of an in-range vector clears that vector's
    pending bit and no other, and it never touches the mask, the timer
    (in particular the STATUS flag stays set), the clock or the recorded
    firing cycles. *)
Theorem ack_clears_only_its_bit (s : iosub) (v : Z) :
  0 <= v < 32 ->
  let s' := snd (iosub_ack_irq v s) in
  Z.testbit (pending_bits (pic s')) v = false /\
  (forall n, 0 <= n < 32 -> n <> v ->
     Z.testbit (pending_bits (pic s')) n =
     Z.testbit (pending_bits (pic s)) n) /\
  mask_bits (pic s') = mask_bits (pic s) /\
  timer s' = timer s /\
  global_cycles s' = global_cycles s /\
  last_event_cycle (pic s') = last_event_cycle (pic s).
Proof.
  intros Hv s'. subst s'. rewrite ack_irq_accepted by lia. cbn [snd].
  destruct (pic_ack_frame v s) as (Hp & Hm & Ht & Hg); [lia |].
  rewrite Hp, Hm, Ht, Hg, pic_ack_keeps_event_cycles.
  assert (Hone : u32 (Z.shiftl 1 v) = 2 ^ v).
  { rewrite Z.shiftl_1_l. apply u32_small.
    split; [apply Z.pow_nonneg; lia | apply Z.pow_lt_mono_r; lia]. }
  rewrite Hone. repeat split.
  - rewrite Z.land_spec, testbit_not32, Z.pow2_bits_true by lia.
    cbn [negb]. now rewrite !andb_false_r.
  - intros n Hn Hne.
    rewrite Z.land_spec, testbit_not32, Z.pow2_bits_false by lia.
    destruct (Z.ltb_spec n 32); [| lia]. cbn. apply andb_true_r.
Qed.

(** X15. A write to the EOI register is an acknowledgment of the low byte
    of the written value: same state as [iosub_ack_irq] on that byte, so a
    byte from 32 up changes nothing. *)
Theorem eoi_write_is_ack (s : iosub) (val : Z) :
  iosub_write32 (PIC_BASE + PIC_OFF_EOI) val s =
    snd (iosub_ack_irq (Z.land val 0xFF) s) /\
  (32 <= Z.land val 0xFF ->
   iosub_write32 (PIC_BASE + PIC_OFF_EOI) val s = s).
Proof.
  assert (Hb : 0 <= Z.land val 0xFF < 2 ^ 8).
  { change 0xFF with (Z.ones 8). rewrite Z.land_ones by lia.
    apply Z.mod_pos_bound. lia. }
  assert (Hw : iosub_write32 (PIC_BASE + PIC_OFF_EOI) val s =
               pic_ack (Z.land val 0xFF) s) by reflexivity.
  split.
  - rewrite ack_irq_accepted by lia. exact Hw.
  - intros Hv. rewrite Hw. now apply pic_ack_dropped.
Qed.

(** X16. A word write to PENDING can only clear requests: the new bitmap
    is [old & ~val], so no bit is ever raised by it, the bits written as 0
    keep their value, and writing back the word just read clears every
    pending request.  Mask, timer, clock and statistics are untouched. *)
Theorem pending_write_only_clears (s : iosub) (val : Z) :
  0 <= pending_bits (pic s) < 2 ^ 32 ->
  let s' := iosub_write32 (PIC_BASE + PIC_OFF_PENDING) val s in
  (forall n, 0 <= n ->
     Z.testbit (pending_bits (pic s')) n =
     Z.testbit (pending_bits (pic s)) n && negb (Z.testbit val n)) /\
  s' = with_pic (with_pending (pending_bits (pic s')) (pic s)) s /\
  pending_bits
    (pic (iosub_write32 (PIC_BASE + PIC_OFF_PENDING)
            (iosub_read32 (PIC_BASE + PIC_OFF_PENDING) s) s)) = 0.
Proof.
  intros Hp s'. subst s'. unfold iosub_write32, iosub_read32.
  rewrite read32_pending, !write32_pending.
  cbn [pic with_pic with_pending pending_bits]. repeat split.
  - intros n Hn. rewrite Z.land_spec, testbit_not32 by assumption.
    destruct (Z.ltb_spec n 32); [reflexivity |].
    now rewrite (testbit_high _ n Hp) by lia.
  - apply Z.bits_inj'. intros n Hn.
    rewrite Z.land_spec, testbit_not32, Z.bits_0 by assumption.
    destruct (Z.testbit (pending_bits (pic s)) n); cbn;
      [apply andb_false_r | reflexivity].
Qed.

(** X10. A timer interrupt is delivered end to end: when the timer fires
    with interrupts enabled and vector 0 unmasked, [irq_pending] answers 0
    right after the tick; if nothing else was pending, acknowledging vector
    0 brings [irq_pending] back to -1. *)
Theorem timer_interrupt_delivery (s : iosub) :
  enabled (timer s) <> 0 -> 0 < period (timer s) -> count (timer s) = 0 ->
  irq_enable (timer s) <> 0 ->
  Z.testbit (mask_bits (pic s)) 0 = false ->
  let s1 := iosub_tick s in
  iosub_irq_pending s1 = 0 /\
  (pending_bits (pic s) = 0 ->
   iosub_irq_pending (snd (iosub_ack_irq 0 s1)) = -1).
Proof.
  intros He Hp Hc Hi Hm s1.
  destruct (iosub_tick_fire s) as (_ & _ & Hpic); try assumption; try lia.
  destruct (Z.eqb_spec (irq_enable (timer s)) 0); [contradiction |].
  rewrite pic_signal_irq_0 in Hpic. cbn [pic with_pic] in Hpic.
  fold s1 in Hpic.
  assert (Hpend : pending_bits (pic s1) = Z.lor (pending_bits (pic s)) 1)
    by now rewrite Hpic.
  assert (Hmask : mask_bits (pic s1) = mask_bits (pic s)) by now rewrite Hpic.
  split.
  - assert (Hbit : Z.testbit (Z.land (pending_bits (pic s1))
                                (not32 (mask_bits (pic s1)))) 0 = true).
    { rewrite unmasked_bit, Hpend, Hmask, Hm, Z.lor_spec by lia.
      now rewrite orb_true_r. }
    destruct (pending_vector_lowest s1) as [(H0 & _) | (Hr & _ & Hbelow)].
    + rewrite H0 in Hbit. now rewrite Z.bits_0 in Hbit.
    + destruct (Z.eq_dec (iosub_irq_pending s1) 0) as [E | Hne]; [exact E |].
      rewrite Hbelow in Hbit by lia. discriminate.
  - intros Hnone. rewrite ack_irq_accepted by lia. cbn [snd].
    destruct (pic_ack_frame 0 s1) as (Hp' & _); [lia |].
    unfold iosub_irq_pending, pic_get_pending_vector.
    rewrite Hp', Hpend, Hnone. reflexivity.
Qed.

Lemma pic_ack_timer vector s : timer (pic_ack vector s) = timer s.
Proof.
  unfold pic_ack, pic_record_latency.
  repeat (match goal with |- context [if ?c then _ else _] => destruct c end);
    reflexivity.
Qed.

Lemma mmio_write32_counters addr val s :
  events_generated (timer (mmio_write32 addr val s)) =
    events_generated (timer s) /\
  last_event_cycle (pic (mmio_write32 addr val s)) =
    last_event_cycle (pic s).
Proof.
  unfold mmio_write32.
  repeat (match goal with |- context [if ?c then _ else _] => destruct c end);
    try (split; reflexivity).
  now rewrite pic_ack_timer, pic_ack_keeps_event_cycles.
Qed.

(** X17. No bus write, of any width, at any address, with any value, can
    change the timer's event counter, the recorded firing cycles or the
    clock; and a word write anywhere but EOI leaves the latency statistics
    as they are. *)
Theorem bus_writes_keep_counters (s : iosub) (addr val : Z) :
  (forall s', s' = iosub_write8 addr val s \/ s' = iosub_write16 addr val s \/
              s' = iosub_write32 addr val s ->
     events_generated (timer s') = events_generated (timer s) /\
     last_event_cycle (pic s') = last_event_cycle (pic s) /\
     global_cycles s' = global_cycles s) /\
  (addr <> PIC_BASE + PIC_OFF_EOI ->
   samples_count (pic (iosub_write32 addr val s)) = samples_count (pic s) /\
   samples_mean (pic (iosub_write32 addr val s)) = samples_mean (pic s) /\
   samples_m2 (pic (iosub_write32 addr val s)) = samples_m2 (pic s)).
Proof.
  split.
  - intros s' [-> | [-> | ->]];
      unfold iosub_write8, iosub_write16, iosub_write32;
      rewrite mmio_write32_cycles;
      match goal with
      | |- context [mmio_write32 ?a ?v s] =>
          destruct (mmio_write32_counters a v s) as (-> & ->)
      end; repeat split.
  - intros Hne. unfold iosub_write32, mmio_write32.
    destruct (in_range addr TIMER_BASE TIMER_SIZE) eqn:Ht.
    { repeat (match goal with
              | |- context [if ?c then _ else _] => destruct c
              end); repeat split. }
    destruct (in_range addr PIC_BASE PIC_SIZE) eqn:Hp; [| repeat split].
    rewrite (u32_small (addr - PIC_BASE)) by (window_offsets; lia).
    destruct (Z.eqb_spec (addr - PIC_BASE) PIC_OFF_MASK); [repeat split |].
    destruct (Z.eqb_spec (addr - PIC_BASE) PIC_OFF_PENDING); [repeat split |].
    destruct (Z.eqb_spec (addr - PIC_BASE) PIC_OFF_EOI); [| repeat split].
    window_offsets. lia.
Qed.

(** X18. The summary always prints 0 samples, mean 0 and variance 0: it
    queries the statistics of vector [VECTOR_TIMER] = 32, while the timer
    signals vector [VECTOR_TIMER % 32] = 0 and only slots 0..31 are ever
    updated.  The cycle count it prints is the number of ticks. *)
Theorem summary_reports_no_latency (h : list call) :
  let r := iosub_print_summary (after h) in
  sum_timer_vector r = 32 /\
  sum_samples r = 0 /\ sum_mean_latency r = ld_zero /\ sum_var r = ld_zero /\
  sum_cycles r = ticks h mod 2 ^ 64 /\
  sum_events r = events_generated (timer (after h)).
Proof.
  intros r. subst r. unfold iosub_print_summary, iosub_get_irq_stats.
  change (64 <=? VECTOR_TIMER) with false. cbv iota.
  pose proof (inv_after h) as [_ _ _ _ _ _ Hhigh].
  change (Z.to_nat VECTOR_TIMER) with 32%nat.
  destruct (Hhigh 32%nat) as (Hc & Hm & Hq); [lia |].
  rewrite Hc, Hm, Hq. cbn [Z.ltb Z.compare].
  cbn [sum_timer_vector sum_samples sum_mean_latency sum_var sum_cycles
       sum_events].
  repeat split. apply after_cycles.
Qed.

(** ** Sub-word writes to the plain registers *)

Lemma testbit_slice x sh w n :
  0 <= sh -> 0 <= w -> 0 <= n ->
  Z.testbit ((x / 2 ^ sh) mod 2 ^ w) n = (n <? w) && Z.testbit x (n + sh).
Proof.
  intros Hsh Hw Hn. now rewrite Z.testbit_mod_pow2, Z.div_pow2_bits by lia.
Qed.

Lemma testbit_outside v w i :
  0 <= w -> 0 <= v < 2 ^ w -> i < 0 \/ w <= i -> Z.testbit v i = false.
Proof.
  intros Hw Hv [Hi | Hi]; [now apply Z.testbit_neg_r |].
  rewrite <- (Z.mod_small v (2 ^ w)) by assumption.
  apply Z.mod_pow2_bits_high. lia.
Qed.

(** Reading the lane at shift [b] of a word whose lane at shift [a] was
    replaced by [v]. *)
Lemma lane_insert_extract w v W a b :
  0 < W -> 0 <= a -> 0 <= b -> a + W <= 32 -> b + W <= 32 ->
  a = b \/ a + W <= b \/ b + W <= a ->
  0 <= v < 2 ^ W ->
  (Z.lor (Z.land w (not32 (u32 (Z.shiftl (Z.ones W) a))))
         (u32 (Z.shiftl v a)) / 2 ^ b) mod 2 ^ W =
  if b =? a then v else (w / 2 ^ b) mod 2 ^ W.
Proof.
  intros HW Ha Hb HaW HbW Hlanes Hv. apply Z.bits_inj'. intros n Hn.
  rewrite testbit_slice, Z.lor_spec, Z.land_spec, testbit_not32, !testbit_u32,
    !Z.shiftl_spec, Z.testbit_ones by lia.
  destruct (Z.ltb_spec n W) as [HnW | HnW]; cbn [andb].
  - destruct (Z.ltb_spec (n + b) 32); [| lia]. cbn [andb].
    destruct (Z.eqb_spec b a) as [-> | Hne].
    + replace (n + a - a) with n by lia.
      destruct (Z.leb_spec 0 n); [| lia].
      destruct (Z.ltb_spec n W); [| lia]. cbn. now rewrite andb_false_r.
    + rewrite (testbit_outside v W (n + b - a)) by lia.
      rewrite testbit_slice by lia.
      destruct (Z.ltb_spec n W); [| lia].
      destruct (Z.leb_spec 0 (n + b - a));
        destruct (Z.ltb_spec (n + b - a) W); try lia;
        cbn; now rewrite andb_true_r, orb_false_r.
  - destruct (Z.eqb_spec b a) as [-> | Hne].
    + symmetry. apply (testbit_outside v W n); lia.
    + rewrite testbit_slice by lia.
      now destruct (Z.ltb_spec n W); [lia |].
Qed.

Lemma plain_register_facts R :
  R ∈ plain_registers ->
  (0 <= R /\ R + 3 < 2 ^ 32 /\ R mod 4 = 0) /\
  forall w s, mmio_read32 R (mmio_write32 R w s) = w.
Proof.
  unfold plain_registers. rewrite !elem_of_cons.
  intros [-> | [-> | [-> | H]]]; [| | | now apply elem_of_nil in H];
    (split; [| reflexivity]); repeat split;
    unfold TIMER_BASE, PIC_BASE, TIMER_OFF_PERIOD, TIMER_OFF_COUNT,
      PIC_OFF_MASK; lia.
Qed.

(** X4. On PERIOD, COUNT and MASK the read-modify-write of a sub-word
    write replaces exactly the addressed lane: reading back the byte (or
    half-word) just written returns it, and every other byte (half-word) of
    the register reads as before. *)
Theorem plain_register_subword_write (s : iosub) (R k j v : Z) :
  R ∈ plain_registers -> 0 <= k <= 3 -> 0 <= j <= 3 ->
  (0 <= v < 2 ^ 8 ->
   iosub_read8 (R + j) (iosub_write8 (R + k) v s) =
   if j =? k then v else iosub_read8 (R + j) s) /\
  (0 <= v < 2 ^ 16 ->
   iosub_read16 (R + j) (iosub_write16 (R + k) v s) =
   if j / 2 =? k / 2 then v else iosub_read16 (R + j) s).
Proof.
  intros HR Hk Hj.
  destruct (plain_register_facts R HR) as ((HR0 & HR3 & HRal) & Hrw).
  destruct (aligned_base R k HR0 HR3 HRal Hk) as (Ek1 & Ek2 & Ek3).
  assert (Hk2 : 0 <= k / 2 <= 1) by (Z.div_mod_to_equations; lia).
  assert (Hj2 : 0 <= j / 2 <= 1) by (Z.div_mod_to_equations; lia).
  split; intros Hv.
  - unfold iosub_write8. rewrite Ek1, Ek2.
    rewrite !read8_aligned, Hrw by lia.
    change 0xFF with (Z.ones 8).
    rewrite lane_insert_extract by lia.
    destruct (Z.eqb_spec j k), (Z.eqb_spec (8 * j) (8 * k)); try lia;
      reflexivity.
  - unfold iosub_write16. rewrite Ek1, Ek3.
    rewrite !read16_aligned, Hrw by lia.
    change 0xFFFF with (Z.ones 16).
    rewrite lane_insert_extract by lia.
    destruct (Z.eqb_spec (j / 2) (k / 2)),
      (Z.eqb_spec (16 * (j / 2)) (16 * (k / 2))); try lia; reflexivity.
Qed.

End Further.

(** * The further properties at concrete inputs *)

Lemma unregistered_word_access_witness :
  (PIC_BASE + PIC_OFF_PRIORITY ∉ read_registers) /\
  iosub_read32 (PIC_BASE + PIC_OFF_PRIORITY) five_pending = 0.
Proof.
  assert (Hreg : PIC_BASE + PIC_OFF_PRIORITY ∉ read_registers).
  { unfold read_registers. rewrite !not_elem_of_cons.
    repeat split; try discriminate. apply not_elem_of_nil. }
  exact (conj Hreg
           (proj1 (unregistered_word_access five_pending
                     (PIC_BASE + PIC_OFF_PRIORITY) 0) Hreg)).
Defined.

Lemma unmapped_subword_access_witness :
  0 <= 0x20000001 < 2 ^ 32 /\
  in_range 0x20000001 TIMER_BASE TIMER_SIZE = false /\
  in_range 0x20000001 PIC_BASE PIC_SIZE = false /\
  iosub_read8 0x20000001 fired_once = 0 /\
  iosub_write8 0x20000001 0xAB fired_once = fired_once.
Proof.
  assert (Ha : 0 <= 0x20000001 < 2 ^ 32) by lia.
  assert (Ht : in_range 0x20000001 TIMER_BASE TIMER_SIZE = false)
    by reflexivity.
  assert (Hp : in_range 0x20000001 PIC_BASE PIC_SIZE = false) by reflexivity.
  pose proof (unmapped_subword_access fired_once 0x20000001 0xAB Ha Ht Hp)
    as W.
  exact (conj Ha (conj Ht (conj Hp
           (conj (proj1 W) (proj1 (proj2 (proj2 W))))))).
Defined.

Lemma subword_reads_slice_word_witness :
  0 <= TIMER_BASE + TIMER_OFF_PERIOD /\
  TIMER_BASE + TIMER_OFF_PERIOD + 3 < 2 ^ 32 /\
  (TIMER_BASE + TIMER_OFF_PERIOD) mod 4 = 0 /\
  0 <= iosub_read32 (TIMER_BASE + TIMER_OFF_PERIOD) fired_once < 2 ^ 32 /\
  iosub_read32 (TIMER_BASE + TIMER_OFF_PERIOD) fired_once =
    iosub_read16 (TIMER_BASE + TIMER_OFF_PERIOD) fired_once +
    2 ^ 16 * iosub_read16 (TIMER_BASE + TIMER_OFF_PERIOD + 2) fired_once.
Proof.
  assert (H0 : 0 <= TIMER_BASE + TIMER_OFF_PERIOD)
    by (unfold TIMER_BASE, TIMER_OFF_PERIOD; lia).
  assert (H3 : TIMER_BASE + TIMER_OFF_PERIOD + 3 < 2 ^ 32) by reflexivity.
  assert (Hal : (TIMER_BASE + TIMER_OFF_PERIOD) mod 4 = 0) by reflexivity.
  assert (Hw : 0 <= iosub_read32 (TIMER_BASE + TIMER_OFF_PERIOD) fired_once
               < 2 ^ 32) by (vm_compute; split; [discriminate | reflexivity]).
  pose proof (subword_reads_slice_word fired_once
                (TIMER_BASE + TIMER_OFF_PERIOD) H0 H3 Hal Hw) as W.
  exact (conj H0 (conj H3 (conj Hal (conj Hw (proj1 (proj2 W)))))).
Defined.

Lemma ticks_until_fire_witness :
  enabled (timer fired_once) <> 0 /\ period (timer fired_once) <> 0 /\
  count (timer fired_once) = Z.of_nat 10 /\ Z.of_nat 10 < 2 ^ 32 /\
  events_generated (timer (run_ticks 11 fired_once)) =
    u64 (events_generated (timer fired_once) + 1).
Proof.
  assert (He : enabled (timer fired_once) <> 0) by (vm_compute; discriminate).
  assert (Hp : period (timer fired_once) <> 0) by (vm_compute; discriminate).
  assert (Hc : count (timer fired_once) = Z.of_nat 10) by reflexivity.
  assert (Hr : Z.of_nat 10 < 2 ^ 32) by reflexivity.
  pose proof (ticks_until_fire fired_once 10 He Hp Hc Hr) as W.
  exact (conj He (conj Hp (conj Hc (conj Hr (proj1 (proj2 W)))))).
Defined.

Lemma ack_latency_counts_ticks_witness :
  enabled (timer harness_setup) <> 0 /\
  0 < period (timer harness_setup) < 2 ^ 32 /\
  count (timer harness_setup) = 0 /\
  irq_enable (timer harness_setup) <> 0 /\
  length (last_event_cycle (pic harness_setup)) = 64%nat /\
  Z.of_nat 3 <= period (timer harness_setup) /\
  0 <= global_cycles harness_setup /\
  global_cycles harness_setup + 1 + Z.of_nat 3 < 2 ^ 64 /\
  iosub_ack_irq 0 (run_ticks 3 (iosub_tick harness_setup)) =
    (1, let s2 := pic_record_latency 0 (Z.of_nat 3)
                    (run_ticks 3 (iosub_tick harness_setup)) in
        with_pic
          (with_pending (Z.land (pending_bits (pic s2)) (not32 1)) (pic s2))
          s2).
Proof.
  assert (He : enabled (timer (@harness_setup exact_ld)) <> 0)
    by (vm_compute; discriminate).
  assert (Hp : 0 < period (timer (@harness_setup exact_ld)) < 2 ^ 32)
    by (vm_compute; split; reflexivity).
  assert (Hc : count (timer (@harness_setup exact_ld)) = 0) by reflexivity.
  assert (Hi : irq_enable (timer (@harness_setup exact_ld)) <> 0)
    by (vm_compute; discriminate).
  assert (Hl : length (last_event_cycle (pic (@harness_setup exact_ld)))
               = 64%nat) by reflexivity.
  assert (Hd : Z.of_nat 3 <= period (timer (@harness_setup exact_ld)))
    by (vm_compute; discriminate).
  assert (Hg0 : 0 <= global_cycles (@harness_setup exact_ld))
    by (vm_compute; discriminate).
  assert (Hg : global_cycles (@harness_setup exact_ld) + 1 + Z.of_nat 3
               < 2 ^ 64) by reflexivity.
  exact (conj He (conj Hp (conj Hc (conj Hi (conj Hl (conj Hd (conj Hg0
           (conj Hg (ack_latency_counts_ticks harness_setup 3
                       He Hp Hc Hi Hl Hd Hg0 Hg))))))))).
Defined.

Lemma mask_hides_but_keeps_pending_witness :
  0 <= 5 < 32 /\
  pending_bits (pic (iosub_write32 (PIC_BASE + PIC_OFF_MASK) 1 five_pending))
    = pending_bits (pic five_pending) /\
  iosub_irq_pending (iosub_write32 (PIC_BASE + PIC_OFF_MASK) 1 five_pending)
    = 5.
Proof.
  assert (Hv : 0 <= 5 < 32) by lia.
  pose proof (mask_hides_but_keeps_pending five_pending 1 5 Hv) as W.
  cbv zeta in W.
  assert (Hp : Z.testbit (pending_bits (pic five_pending)) 5 = true)
    by reflexivity.
  assert (Hm : Z.testbit 1 5 = false) by reflexivity.
  assert (Hlow : forall j, 0 <= j < 5 ->
            Z.testbit (pending_bits (pic five_pending)) j = true ->
            Z.testbit 1 j = true).
  { intros j Hj.
    assert (Hc : j = 0 \/ j = 1 \/ j = 2 \/ j = 3 \/ j = 4) by lia.
    destruct Hc as [-> | [-> | [-> | [-> | ->]]]]; cbn; congruence. }
  exact (conj Hv (conj (proj1 W) (proj2 (proj2 W) Hp Hm Hlow))).
Defined.

Lemma ack_clears_only_its_bit_witness :
  0 <= 5 < 32 /\
  Z.testbit (pending_bits (pic (snd (iosub_ack_irq 5 five_pending)))) 5
    = false /\
  timer (snd (iosub_ack_irq 5 five_pending)) = timer five_pending.
Proof.
  assert (Hv : 0 <= 5 < 32) by lia.
  pose proof (ack_clears_only_its_bit five_pending 5 Hv) as W.
  cbv zeta in W.
  exact (conj Hv (conj (proj1 W) (proj1 (proj2 (proj2 (proj2 W)))))).
Defined.

Lemma eoi_write_is_ack_witness :
  32 <= Z.land 0x120 0xFF /\
  iosub_write32 (PIC_BASE + PIC_OFF_EOI) 0x120 five_pending = five_pending.
Proof.
  assert (Hv : 32 <= Z.land 0x120 0xFF) by (vm_compute; discriminate).
  exact (conj Hv (proj2 (eoi_write_is_ack five_pending 0x120) Hv)).
Defined.

Lemma pending_write_only_clears_witness :
  0 <= pending_bits (pic five_pending) < 2 ^ 32 /\
  pending_bits
    (pic (iosub_write32 (PIC_BASE + PIC_OFF_PENDING)
            (iosub_read32 (PIC_BASE + PIC_OFF_PENDING) five_pending)
            five_pending)) = 0.
Proof.
  assert (Hp : 0 <= pending_bits (pic five_pending) < 2 ^ 32)
    by (vm_compute; split; [discriminate | reflexivity]).
  pose proof (pending_write_only_clears five_pending 0 Hp) as W.
  cbv zeta in W.
  exact (conj Hp (proj2 (proj2 W))).
Defined.

Lemma timer_interrupt_delivery_witness :
  enabled (timer harness_setup) <> 0 /\
  0 < period (timer harness_setup) /\
  count (timer harness_setup) = 0 /\
  irq_enable (timer harness_setup) <> 0 /\
  Z.testbit (mask_bits (pic harness_setup)) 0 = false /\
  pending_bits (pic harness_setup) = 0 /\
  iosub_irq_pending (iosub_tick harness_setup) = 0 /\
  iosub_irq_pending (snd (iosub_ack_irq 0 (iosub_tick harness_setup))) = -1.
Proof.
  assert (He : enabled (timer (@harness_setup exact_ld)) <> 0)
    by (vm_compute; discriminate).
  assert (Hp : 0 < period (timer (@harness_setup exact_ld))) by reflexivity.
  assert (Hc : count (timer (@harness_setup exact_ld)) = 0) by reflexivity.
  assert (Hi : irq_enable (timer (@harness_setup exact_ld)) <> 0)
    by (vm_compute; discriminate).
  assert (Hm : Z.testbit (mask_bits (pic (@harness_setup exact_ld))) 0 = false)
    by reflexivity.
  assert (Hn : pending_bits (pic (@harness_setup exact_ld)) = 0)
    by reflexivity.
  pose proof (timer_interrupt_delivery harness_setup He Hp Hc Hi Hm) as W.
  cbv zeta in W.
  exact (conj He (conj Hp (conj Hc (conj Hi (conj Hm (conj Hn
           (conj (proj1 W) (proj2 W Hn)))))))).
Defined.

Lemma plain_register_subword_write_witness :
  (TIMER_BASE + TIMER_OFF_PERIOD ∈ plain_registers) /\
  0 <= 2 <= 3 /\ 0 <= 0 <= 3 /\ 0 <= 0xAB < 2 ^ 8 /\
  iosub_read8 (TIMER_BASE + TIMER_OFF_PERIOD + 0)
    (iosub_write8 (TIMER_BASE + TIMER_OFF_PERIOD + 2) 0xAB fired_once) =
  (if 0 =? 2 then 0xAB
   else iosub_read8 (TIMER_BASE + TIMER_OFF_PERIOD + 0) fired_once).
Proof.
  assert (HR : TIMER_BASE + TIMER_OFF_PERIOD ∈ plain_registers)
    by (unfold plain_registers; rewrite elem_of_cons; left; reflexivity).
  assert (Hk : 0 <= 2 <= 3) by lia.
  assert (Hj : 0 <= 0 <= 3) by lia.
  assert (Hv : 0 <= 0xAB < 2 ^ 8) by lia.
  exact (conj HR (conj Hk (conj Hj (conj Hv
           (proj1 (plain_register_subword_write fired_once
                     (TIMER_BASE + TIMER_OFF_PERIOD) 2 0 0xAB HR Hk Hj)
                  Hv))))).
Defined.

Lemma timer_refire_gap_witness :
  enabled (timer harness_setup) <> 0 /\
  period (timer harness_setup) = 10 /\ 0 < 10 < 2 ^ 32 /\
  count (timer harness_setup) = 0 /\
  events_generated (timer (run_ticks (Z.to_nat 10 + 2) harness_setup)) =
    u64 (u64 (events_generated (timer harness_setup) + 1) + 1).
Proof.
  assert (He : enabled (timer (@harness_setup exact_ld)) <> 0)
    by (vm_compute; discriminate).
  assert (HP : period (timer (@harness_setup exact_ld)) = 10) by reflexivity.
  assert (Hr : 0 < 10 < 2 ^ 32) by lia.
  assert (Hc : count (timer (@harness_setup exact_ld)) = 0) by reflexivity.
  pose proof (timer_refire_gap harness_setup 10 He HP Hr Hc) as W.
  cbv zeta in W.
  exact (conj He (conj HP (conj Hr (conj Hc (proj2 (proj2 W)))))).
Defined.

(** * Long runs and isolation *)

Section Isolation.
Context `{LD : LongDouble}.

(** A tick never changes the timer's configuration. *)
Lemma tick_keeps_config s :
  enabled (timer (iosub_tick s)) = enabled (timer s) /\
  irq_enable (timer (iosub_tick s)) = irq_enable (timer s) /\
  period (timer (iosub_tick s)) = period (timer s).
Proof.
  unfold iosub_tick, timer_tick, pic_signal_irq. cbn [timer].
  repeat (match goal with |- context [if ?c then _ else _] => destruct c end);
    repeat split.
Qed.

(** X6. A timer that is disabled, or whose period is 0, never fires and
    never counts, however many ticks go by: timer and PIC stay as they
    are. *)
Theorem idle_timer_never_fires (s : iosub) (n : nat) :
  enabled (timer s) = 0 \/ period (timer s) = 0 ->
  timer (run_ticks n s) = timer s /\ pic (run_ticks n s) = pic s.
Proof.
  intros Hidle. induction n as [| n (IHt & IHp)]; [split; reflexivity |].
  cbn [run_ticks].
  rewrite (idle_tick_only_advances_clock (run_ticks n s))
    by (rewrite IHt; exact Hidle).
  cbn [timer pic]. split; assumption.
Qed.

(** X9. With [irq_enable] clear the timer can only be polled: it still
    counts and fires, but no number of ticks changes anything in the PIC. *)
Theorem polled_timer_keeps_pic (s : iosub) (n : nat) :
  irq_enable (timer s) = 0 ->
  irq_enable (timer (run_ticks n s)) = 0 /\ pic (run_ticks n s) = pic s.
Proof.
  intros Hi. induction n as [| n (IHi & IHp)]; [split; [assumption | reflexivity] |].
  cbn [run_ticks].
  destruct (tick_keeps_config (run_ticks n s)) as (_ & Hirq & _).
  split; [now rewrite Hirq |].
  rewrite <- IHp. unfold iosub_tick, timer_tick. cbn [timer].
  rewrite IHi. cbn [Z.eqb].
  repeat (match goal with |- context [if ?c then _ else _] => destruct c end);
    reflexivity.
Qed.

(** X14. Acknowledging one vector never changes what the statistics query
    returns for another vector. *)
Theorem ack_keeps_other_vectors_stats (s : iosub) (v w : Z) :
  0 <= v < 2 ^ 31 -> 0 <= w -> w <> v ->
  iosub_get_irq_stats w (snd (iosub_ack_irq v s)) = iosub_get_irq_stats w s.
Proof.
  intros Hv Hw Hne. rewrite ack_irq_accepted by lia. cbn [snd].
  unfold iosub_get_irq_stats.
  destruct (Z.leb_spec 64 w); [reflexivity |].
  unfold pic_ack.
  destruct (Z.leb_spec 32 v); [reflexivity |].
  destruct (_ =? 0); [reflexivity |].
  unfold pic_record_latency.
  destruct (Z.leb_spec 64 v); [lia |].
  cbn [pic with_pic with_pending samples_count samples_mean samples_m2].
  rewrite !list_lookup_total_insert_ne by lia. reflexivity.
Qed.

End Isolation.

Lemma idle_timer_never_fires_witness :
  (enabled (timer idle_cycle_1) = 0 \/ period (timer idle_cycle_1) = 0) /\
  timer (run_ticks 1000 idle_cycle_1) = timer idle_cycle_1 /\
  pic (run_ticks 1000 idle_cycle_1) = pic idle_cycle_1.
Proof.
  assert (Hidle : enabled (timer idle_cycle_1) = 0 \/
                  period (timer idle_cycle_1) = 0) by (left; reflexivity).
  exact (conj Hidle (idle_timer_never_fires idle_cycle_1 1000 Hidle)).
Defined.

Lemma polled_timer_keeps_pic_witness :
  irq_enable (timer idle_cycle_1) = 0 /\
  irq_enable (timer (run_ticks 7 idle_cycle_1)) = 0 /\
  pic (run_ticks 7 idle_cycle_1) = pic idle_cycle_1.
Proof.
  assert (Hi : irq_enable (timer idle_cycle_1) = 0) by reflexivity.
  exact (conj Hi (polled_timer_keeps_pic idle_cycle_1 7 Hi)).
Defined.

Lemma ack_keeps_other_vectors_stats_witness :
  0 <= 0 < 2 ^ 31 /\ 0 <= 5 /\ 5 <> 0 /\
  iosub_get_irq_stats 5 (snd (iosub_ack_irq 0 fired_once)) =
  iosub_get_irq_stats 5 fired_once.
Proof.
  assert (Hv : 0 <= 0 < 2 ^ 31) by lia.
  assert (Hw : 0 <= 5) by lia.
  assert (Hne : 5 <> 0) by discriminate.
  exact (conj Hv (conj Hw (conj Hne
           (ack_keeps_other_vectors_stats fired_once 0 5 Hv Hw Hne)))).
Defined.

(** * Firing cycle and acknowledgment latency *)

Section FiringLatency.
Context `{LD : LongDouble}.

(** The three statistics of a slot after one more sample. *)
Lemma pic_record_latency_slot vector latency s :
  0 <= vector < 64 ->
  (Z.to_nat vector < length (samples_count (pic s)))%nat ->
  (Z.to_nat vector < length (samples_mean (pic s)))%nat ->
  (Z.to_nat vector < length (samples_m2 (pic s)))%nat ->
  let i := Z.to_nat vector in
  let p := pic (pic_record_latency vector latency s) in
  let n := u64 (samples_count (pic s) !!! i + 1) in
  let m := samples_mean (pic s) !!! i in
  let x := ld_of_u64 latency in
  let m' := ld_add m (ld_div (ld_sub x m) (ld_of_u64 n)) in
  samples_count p !!! i = n /\
  samples_mean p !!! i = m' /\
  samples_m2 p !!! i =
    ld_add (samples_m2 (pic s) !!! i) (ld_mul (ld_sub x m) (ld_sub x m')).
Proof.
  intros Hv L1 L2 L3. cbv zeta. unfold pic_record_latency.
  destruct (Z.leb_spec 64 vector); [lia |].
  cbn [pic with_pic samples_count samples_mean samples_m2].
  rewrite (list_lookup_total_insert_eq (samples_count (pic s))),
    (list_lookup_total_insert_eq (samples_mean (pic s))),
    (list_lookup_total_insert_eq (samples_m2 (pic s))) by assumption.
  repeat split.
Qed.

(** An acknowledgment of vector 0 whose firing was recorded at cycle [E],
    issued [z] cycles later. *)
Lemma ack_folds_latency sd E z :
  0 < E -> 0 <= z -> E + z < 2 ^ 64 ->
  last_event_cycle (pic sd) !!! 0%nat = E -> global_cycles sd = E + z ->
  iosub_ack_irq 0 sd =
    (1, let s2 := pic_record_latency 0 z sd in
        with_pic
          (with_pending (Z.land (pending_bits (pic s2)) (not32 1)) (pic s2))
          s2).
Proof.
  intros HE Hz Hr Hev Hg.
  rewrite ack_irq_accepted by lia.
  rewrite pic_ack_event by (change (Z.to_nat 0) with 0%nat; lia).
  change (Z.to_nat 0) with 0%nat. rewrite Hev, Hg.
  replace (E + z - E) with z by lia.
  change (u32 (Z.shiftl 1 0)) with 1.
  rewrite (u64_small z) by lia. reflexivity.
Qed.

(** C9 (amended). The clock is advanced before the timer logic runs: when
    the Nth tick since reset fires with [irq_enable] set, the clock and the
    recorded firing cycle of vector 0 both are N.  An acknowledgment of
    vector 0 issued right after that call is accepted and folds one sample
    of latency 0: the count goes up by one and the running mean and sum of
    squared deviations take Welford's update at 0.  Issued [d] ticks later
    instead, [d] no more than the period, it folds a sample of latency
    [d]. *)
Theorem firing_cycle_and_zero_latency (h : list call) :
  let s := after h in
  let N := ticks h + 1 in
  N < 2 ^ 64 ->
  enabled (timer s) <> 0 -> 0 < period (timer s) -> count (timer s) = 0 ->
  irq_enable (timer s) <> 0 ->
  let s1 := iosub_tick s in
  let n := u64 (samples_count (pic s1) !!! 0%nat + 1) in
  let m := samples_mean (pic s1) !!! 0%nat in
  let q := samples_m2 (pic s1) !!! 0%nat in
  let mean_with x := ld_add m (ld_div (ld_sub x m) (ld_of_u64 n)) in
  let m2_with x := ld_add q (ld_mul (ld_sub x m) (ld_sub x (mean_with x))) in
  global_cycles s1 = N /\
  last_event_cycle (pic s1) !!! 0%nat = N /\
  (fst (iosub_ack_irq 0 s1) = 1 /\
   samples_count (pic (snd (iosub_ack_irq 0 s1))) !!! 0%nat = n /\
   samples_mean (pic (snd (iosub_ack_irq 0 s1))) !!! 0%nat =
     mean_with (ld_of_u64 0) /\
   samples_m2 (pic (snd (iosub_ack_irq 0 s1))) !!! 0%nat =
     m2_with (ld_of_u64 0)) /\
  (forall d : nat,
     Z.of_nat d <= period (timer s) < 2 ^ 32 -> N + Z.of_nat d < 2 ^ 64 ->
     let sd := run_ticks d s1 in
     fst (iosub_ack_irq 0 sd) = 1 /\
     samples_count (pic (snd (iosub_ack_irq 0 sd))) !!! 0%nat = n /\
     samples_mean (pic (snd (iosub_ack_irq 0 sd))) !!! 0%nat =
       mean_with (ld_of_u64 (Z.of_nat d)) /\
     samples_m2 (pic (snd (iosub_ack_irq 0 sd))) !!! 0%nat =
       m2_with (ld_of_u64 (Z.of_nat d))).
Proof.
  intros s N HN He Hp Hc Hi s1 n m q mean_with m2_with.
  pose proof (ticks_nonneg h) as Ht.
  pose proof (inv_after h) as Hinv. fold s in Hinv.
  pose proof (inv_iosub_tick s Hinv) as Hinv1. fold s1 in Hinv1.
  assert (Hg : global_cycles s = ticks h).
  { unfold s. rewrite after_cycles. apply u64_small. lia. }
  destruct (iosub_tick_fire s) as (Htm & Hg1 & Hpic);
    try assumption; try lia.
  fold s1 in Htm, Hg1, Hpic.
  assert (HgN : global_cycles s1 = N).
  { rewrite Hg1, Hg. apply u64_small. lia. }
  assert (Hev : last_event_cycle (pic s1) !!! 0%nat = N).
  { rewrite Hpic.
    destruct (Z.eqb_spec (irq_enable (timer s)) 0); [contradiction |].
    rewrite pic_signal_irq_0. cbn [pic with_pic last_event_cycle global_cycles].
    rewrite list_lookup_total_insert_eq by (rewrite (inv_len_event s Hinv); lia).
    rewrite Hg. apply u64_small. lia. }
  (* what an acknowledgment does in any state that still holds the PIC of
     [s1], [z] cycles after the firing *)
  assert (Hfold : forall sd z, pic sd = pic s1 -> global_cycles sd = N + z ->
            0 <= z -> N + z < 2 ^ 64 ->
            fst (iosub_ack_irq 0 sd) = 1 /\
            samples_count (pic (snd (iosub_ack_irq 0 sd))) !!! 0%nat = n /\
            samples_mean (pic (snd (iosub_ack_irq 0 sd))) !!! 0%nat =
              mean_with (ld_of_u64 z) /\
            samples_m2 (pic (snd (iosub_ack_irq 0 sd))) !!! 0%nat =
              m2_with (ld_of_u64 z)).
  { intros sd z Hsame Hgz Hz Hrz.
    rewrite (ack_folds_latency sd N z) by (rewrite ?Hsame; lia || assumption).
    cbn [fst snd pic with_pic with_pending samples_count samples_mean
         samples_m2].
    split; [reflexivity |].
    destruct (pic_record_latency_slot 0 z sd) as (E1 & E2 & E3);
      try lia; change (Z.to_nat 0) with 0%nat in *; rewrite ?Hsame;
      rewrite ?(inv_len_count s1 Hinv1), ?(inv_len_mean s1 Hinv1),
        ?(inv_len_m2 s1 Hinv1); try lia.
    rewrite Hsame in E1, E2, E3. repeat split; assumption. }
  split; [exact HgN |]. split; [exact Hev |]. split.
  - apply (Hfold s1 0); [reflexivity | lia | lia | lia].
  - intros d Hd Hrd sd.
    assert (Hsd : pic sd = pic s1 /\ global_cycles sd = N + Z.of_nat d).
    { subst sd.
      destruct (run_ticks_count_down_state d s1) as [E | [-> E]];
        rewrite ?Htm; cbn [enabled period count]; try assumption; try lia;
        rewrite E; cbn [pic global_cycles]; rewrite ?HgN.
      - split; [reflexivity | apply u64_small; lia].
      - split; [reflexivity | cbn; lia]. }
    destruct Hsd as (Hsame & Hgd).
    apply (Hfold sd (Z.of_nat d)); [assumption | assumption | lia | lia].
Qed.

End FiringLatency.

Lemma firing_cycle_and_zero_latency_witness :
  ticks eleven_ticks + 1 < 2 ^ 64 /\
  enabled (timer (after eleven_ticks)) <> 0 /\
  0 < period (timer (after eleven_ticks)) /\
  count (timer (after eleven_ticks)) = 0 /\
  irq_enable (timer (after eleven_ticks)) <> 0 /\
  global_cycles fired_twelfth = ticks eleven_ticks + 1 /\
  last_event_cycle (pic fired_twelfth) !!! 0%nat = ticks eleven_ticks + 1 /\
  samples_count (pic (snd (iosub_ack_irq 0 fired_twelfth))) !!! 0%nat =
    u64 (samples_count (pic fired_twelfth) !!! 0%nat + 1) /\
  samples_mean (pic (snd (iosub_ack_irq 0 fired_twelfth))) !!! 0%nat =
    ld_add (samples_mean (pic fired_twelfth) !!! 0%nat)
      (ld_div (ld_sub (ld_of_u64 0) (samples_mean (pic fired_twelfth) !!! 0%nat))
         (ld_of_u64 (u64 (samples_count (pic fired_twelfth) !!! 0%nat + 1)))) /\
  (Z.of_nat 3 <= period (timer (after eleven_ticks)) < 2 ^ 32 /\
   ticks eleven_ticks + 1 + Z.of_nat 3 < 2 ^ 64 /\
   samples_mean
     (pic (snd (iosub_ack_irq 0 (run_ticks 3 fired_twelfth)))) !!! 0%nat =
   ld_add (samples_mean (pic fired_twelfth) !!! 0%nat)
     (ld_div (ld_sub (ld_of_u64 (Z.of_nat 3))
                (samples_mean (pic fired_twelfth) !!! 0%nat))
        (ld_of_u64 (u64 (samples_count (pic fired_twelfth) !!! 0%nat + 1))))).
Proof.
  assert (HN : ticks eleven_ticks + 1 < 2 ^ 64) by (vm_compute; reflexivity).
  assert (He : enabled (timer (after eleven_ticks)) <> 0)
    by (vm_compute; discriminate).
  assert (Hp : 0 < period (timer (after eleven_ticks)))
    by (vm_compute; reflexivity).
  assert (Hc : count (timer (after eleven_ticks)) = 0)
    by (vm_compute; reflexivity).
  assert (Hi : irq_enable (timer (after eleven_ticks)) <> 0)
    by (vm_compute; discriminate).
  assert (Hd : Z.of_nat 3 <= period (timer (after eleven_ticks)) < 2 ^ 32)
    by (vm_compute; split; [discriminate | reflexivity]).
  assert (Hrd : ticks eleven_ticks + 1 + Z.of_nat 3 < 2 ^ 64)
    by (vm_compute; reflexivity).
  pose proof (firing_cycle_and_zero_latency eleven_ticks HN He Hp Hc Hi)
    as Hfire.
  cbv zeta in Hfire.
  destruct Hfire as (Hg & Hev & (_ & Hcnt & Hmean & _) & Hlater).
  destruct (Hlater 3%nat Hd Hrd) as (_ & _ & Hmean3 & _).
  exact (conj HN (conj He (conj Hp (conj Hc (conj Hi (conj Hg (conj Hev
           (conj Hcnt (conj Hmean (conj Hd (conj Hrd Hmean3))))))))))).
Defined.

(** C9, as stated, fails when the timer is only polled: with [irq_enable]
    clear the firing in call 1 records no firing cycle, and the
    acknowledgment that follows records no sample. *)
Lemma polled_firing_records_no_cycle :
  ticks polled_calls + 1 = 1 /\
  events_generated (timer (after polled_calls)) = 0 /\
  events_generated (timer polled_fired) = 1 /\
  global_cycles polled_fired = 1 /\
  last_event_cycle (pic polled_fired) !!! 0%nat = 0 /\
  last_event_cycle (pic polled_fired) !!! 0%nat <> ticks polled_calls + 1 /\
  iosub_get_irq_stats 0 (snd (iosub_ack_irq 0 polled_fired)) =
    (0, 0%Q, 0%Q).
Proof. repeat split; vm_compute; try reflexivity; discriminate. Qed.
